(** * NWM daily topic sender: a shallow embedding of [app.py]

    The program asks a chat-completion endpoint for one study topic, appends
    it to an SQLite table and sends it to one Telegram chat.  This file
    embeds the string helpers, the response decoding, the store operations
    and the top-level sequencing of [app.py], and proves the properties the
    specification states about them.

    Python values are modelled as follows.
    - [str] is a list of Unicode code points, each a [Z]; [len] is the number
      of code points, as Python's [len] on a [str].
    - [int] is [Z] (Python integers do not wrap).
    - a [dict] with string keys read from the process environment or from the
      SQLite catalogue is a [gmap]; a decoded JSON object keeps its insertion
      order and is an association list. *)

From Stdlib Require Import ZArith Lia List String Ascii.
From stdpp Require Import base list strings gmap.

Local Open Scope Z_scope.

(* ===================================================================== *)
(** ** Python strings *)
(* ===================================================================== *)

Module PyStr.

Abbreviation codepoint := Z.
Abbreviation str := (list Z).

Definition len (s : str) : Z := Z.of_nat (length s).

(** Bytes of a Rocq string literal, and their UTF-8 decoding: the literals
    of [app.py] are written below as they stand in the source and decoded
    to code points. *)
Fixpoint bytes_of (s : string) : list Z :=
  match s with
  | EmptyString => []
  | String a s' => Z.of_N (N_of_ascii a) :: bytes_of s'
  end.

Fixpoint utf8_go (bs : list Z) (pending : nat) (acc : Z) : str :=
  match bs with
  | [] => []
  | b :: bs' =>
      match pending with
      | O =>
          if b <? 128 then b :: utf8_go bs' 0 0
          else if b <? 224 then utf8_go bs' 1 (b - 192)
          else if b <? 240 then utf8_go bs' 2 (b - 224)
          else utf8_go bs' 3 (b - 240)
      | S O => (acc * 64 + (b - 128)) :: utf8_go bs' 0 0
      | S p => utf8_go bs' p (acc * 64 + (b - 128))
      end
  end.

Definition utf8 (s : string) : str := utf8_go (bytes_of s) 0 0.

Definition newline : codepoint := 10.
Definition backslash : codepoint := 92.
Definition underscore : codepoint := 95.
Definition asterisk : codepoint := 42.
Definition backtick : codepoint := 96.
Definition open_bracket : codepoint := 91.

(** [s[:k]]: a negative [k] counts from the end, and the bound is clamped
    to the string. *)
Definition slice_to (s : str) (k : Z) : str :=
  take (Z.to_nat (if k <? 0 then len s + k else k)) s.

(** [startswith]: [sub] is a prefix of [s]. *)
Fixpoint starts_with (sub s : str) : bool :=
  match sub, s with
  | [], _ => true
  | _ :: _, [] => false
  | a :: sub', b :: s' => (a =? b) && starts_with sub' s'
  end.

(** [s.rfind(sub)]: the highest index at which [sub] occurs in [s], or -1.
    The scan keeps the last index at which [sub] matched. *)
Fixpoint rfind_from (sub s : str) (i last : Z) : Z :=
  match s with
  | [] => if starts_with sub [] then i else last
  | _ :: s' => rfind_from sub s' (i + 1) (if starts_with sub s then i else last)
  end.

Definition rfind (sub s : str) : Z := rfind_from sub s 0 (-1).

(** [s.replace(old, new)]: the non-overlapping occurrences of [old], found
    from the left, are replaced by [new].  [skip] counts the characters of
    an occurrence still to be dropped.  With an empty [old], Python puts
    [new] before every character and at the end. *)
Fixpoint replace_go (old new : str) (skip : nat) (s : str) : str :=
  match s with
  | [] => []
  | c :: s' =>
      match skip with
      | S k => replace_go old new k s'
      | O =>
          if starts_with old s
          then new ++ replace_go old new (length old - 1)%nat s'
          else c :: replace_go old new 0 s'
      end
  end.

Definition replace (old new : str) (s : str) : str :=
  match old with
  | [] => new ++ flat_map (fun c => c :: new) s
  | _ :: _ => replace_go old new 0 s
  end.

(** The code points [str.isspace] accepts; [str.strip()] removes them from
    both ends. *)
Definition is_space (c : codepoint) : bool :=
  ((9 <=? c) && (c <=? 13)) || ((28 <=? c) && (c <=? 32))
  || (c =? 133) || (c =? 160) || (c =? 5760)
  || ((8192 <=? c) && (c <=? 8202))
  || (c =? 8232) || (c =? 8233) || (c =? 8239) || (c =? 8287) || (c =? 12288).

Fixpoint lstrip (s : str) : str :=
  match s with
  | [] => []
  | c :: s' => if is_space c then lstrip s' else s
  end.

Definition rstrip (s : str) : str := rev (lstrip (rev s)).

Definition strip (s : str) : str := lstrip (rstrip s).

End PyStr.

Import PyStr.

(* ===================================================================== *)
(** ** The length guard and the Markdown escaping *)
(* ===================================================================== *)

(** The marker [ensure_telegram_length] appends, after its two newlines. *)
Definition truncation_marker : str :=
  Eval vm_compute in
    [newline; newline] ++ utf8 "*(zkráceno — otevři úplnou historii v DB)*".

Definition default_limit : Z := 4000.

(** [ensure_telegram_length(text, limit)]. *)
Definition ensure_telegram_length (text : str) (limit : Z) : str :=
  if len text <=? limit then text
  else
    let cut := slice_to text (limit - 200) in
    let last_newline := rfind [newline] cut in
    let cut := if 0 <? last_newline then slice_to cut last_newline else cut in
    cut ++ truncation_marker.

(** The escaping of [main]:
    [msg.replace("_", "\\_").replace("*", "\\*").replace("`", "\\`").replace("[", "\\[")]. *)
Definition esc (msg : str) : str :=
  replace [open_bracket] [backslash; open_bracket]
    (replace [backtick] [backslash; backtick]
       (replace [asterisk] [backslash; asterisk]
          (replace [underscore] [backslash; underscore] msg))).

(** The four characters the escaping looks for. *)
Definition is_meta (c : codepoint) : bool :=
  (c =? underscore) || (c =? asterisk) || (c =? backtick) || (c =? open_bracket).

(** The escaping of one character, for the statement of what [esc] does. *)
Definition esc_char (c : codepoint) : str :=
  if is_meta c then [backslash; c] else [c].

(** The text before the topic: the fixed title, the local time as
    [strftime('%Y-%m-%d %H:%M %Z')] printed it, and an empty line. *)
Definition header_prefix : str := Eval vm_compute in utf8 "📚 Denní téma — ".

Definition header (now : str) : str := header_prefix ++ now ++ [newline; newline].

(** The text [main] hands to [send_telegram], from the flag
    [SEND_AS_MARKDOWN], the formatted local time and the topic. *)
Definition msg_to_send (send_as_markdown : bool) (now topic : str) : str :=
  let msg := header now ++ topic in
  let msg := ensure_telegram_length msg default_limit in
  if send_as_markdown then esc msg else msg.

(* ===================================================================== *)
(** ** Exceptions *)
(* ===================================================================== *)

(** Why an SQLite statement failed. *)
Inductive sql_error :=
| NoSuchTable            (* the statement names a table the file lacks *)
| DatabaseFull.          (* AUTOINCREMENT has used the largest rowid *)

(** The exceptions that can leave the functions of [app.py]. *)
Inductive exn :=
| SystemExit (msg : str)           (* [raise SystemExit(msg)] *)
| ValueError (literal : str)       (* [int()] or [float()] on a bad literal *)
| RequestException                 (* [requests.post]: no connection, timeout *)
| HTTPError (status : Z)           (* [raise_for_status()] *)
| JSONDecodeError                  (* [r.json()] on a body that is not JSON *)
| KeyError
| IndexError
| TypeError
| AttributeError                   (* [.strip()] on a value that is no [str] *)
| UnicodeEncodeError               (* a [str] with a surrogate bound to a statement *)
| OperationalError (why : sql_error).

(** [except Exception] catches every exception but [SystemExit], which
    derives from [BaseException] only. *)
Definition is_Exception (e : exn) : bool :=
  match e with
  | SystemExit _ => false
  | _ => true
  end.

Inductive result (A : Type) :=
| Ok (a : A)
| Raise (e : exn).
Arguments Ok {A} a.
Arguments Raise {A} e.

(* ===================================================================== *)
(** ** Decoded JSON values *)
(* ===================================================================== *)

(** A float, as far as the program can tell floats apart: a finite one by
    the text [repr] prints for it, and the three that are not finite, which
    the decoder reads from [Infinity], [-Infinity], [NaN] or from a number
    too large. *)
Inductive pyfloat :=
| FFinite (repr : str)
| FInfinity
| FNegInfinity
| FNaN.

(** What [r.json()] returns. *)
#[local] Set Warnings "-register-all".
Inductive json :=
| JNull
| JBool (b : bool)
| JInt (n : Z)
| JFloat (x : pyfloat)
| JString (s : str)
| JArray (items : list json)
| JObject (members : list (str * json)).

(** A subscript: [v["name"]] or [v[0]]. *)
Inductive key :=
| KStr (name : str)
| KInt (index : Z).

Fixpoint dict_get (name : str) (members : list (str * json)) : option json :=
  match members with
  | [] => None
  | (k, v) :: rest => if decide (name = k) then Some v else dict_get name rest
  end.

(** Python's sequence index: a negative index counts from the end. *)
Definition seq_index {A} (l : list A) (i : Z) : option A :=
  let i' := if i <? 0 then i + Z.of_nat (length l) else i in
  if i' <? 0 then None else l !! Z.to_nat i'.

(** [v[k]] on a decoded JSON value. *)
Definition getitem (v : json) (k : key) : result json :=
  match v, k with
  | JObject members, KStr name =>
      match dict_get name members with
      | Some x => Ok x
      | None => Raise KeyError
      end
  | JObject _, KInt _ => Raise KeyError
  | JArray items, KInt i =>
      match seq_index items i with
      | Some x => Ok x
      | None => Raise IndexError
      end
  | JString s, KInt i =>
      match seq_index s i with
      | Some c => Ok (JString [c])
      | None => Raise IndexError
      end
  | _, _ => Raise TypeError
  end.

Definition s_choices : str := Eval vm_compute in utf8 "choices".
Definition s_message : str := Eval vm_compute in utf8 "message".
Definition s_content : str := Eval vm_compute in utf8 "content".

(** The response carries the field path [choices[0].message.content]:
    an object whose member [choices] is a non-empty array, whose first
    item is an object with a member [message], itself an object with a
    member [content]. *)
Definition content_at_path (data : json) : option json :=
  match data with
  | JObject top =>
      match dict_get s_choices top with
      | Some (JArray (JObject choice :: _)) =>
          match dict_get s_message choice with
          | Some (JObject message) => dict_get s_content message
          | _ => None
          end
      | _ => None
      end
  | _ => None
  end.

(** *** [json.dumps(data, ensure_ascii=False, indent=2)] *)

Fixpoint str_of_uint (u : Decimal.uint) : str :=
  match u with
  | Decimal.Nil => []
  | Decimal.D0 u => 48 :: str_of_uint u
  | Decimal.D1 u => 49 :: str_of_uint u
  | Decimal.D2 u => 50 :: str_of_uint u
  | Decimal.D3 u => 51 :: str_of_uint u
  | Decimal.D4 u => 52 :: str_of_uint u
  | Decimal.D5 u => 53 :: str_of_uint u
  | Decimal.D6 u => 54 :: str_of_uint u
  | Decimal.D7 u => 55 :: str_of_uint u
  | Decimal.D8 u => 56 :: str_of_uint u
  | Decimal.D9 u => 57 :: str_of_uint u
  end.

(** [str(n)] for an [int]. *)
Definition str_of_int (n : Z) : str :=
  match Z.to_int n with
  | Decimal.Pos u => str_of_uint u
  | Decimal.Neg u => 45 :: str_of_uint u
  end.

(** The encoder prints a finite float with [repr] and the others by name. *)
Definition float_json (x : pyfloat) : str :=
  match x with
  | FFinite repr => repr
  | FInfinity => utf8 "Infinity"
  | FNegInfinity => utf8 "-Infinity"
  | FNaN => utf8 "NaN"
  end.

Definition hex_digit (d : Z) : codepoint := if d <? 10 then 48 + d else 87 + d.

(** One character inside a JSON string: the two-character escapes of the
    encoder, [\u00xx] for the other control characters, and every other
    character as it is ([ensure_ascii=False]). *)
Definition json_escape_char (c : codepoint) : str :=
  if c =? 34 then [92; 34]
  else if c =? 92 then [92; 92]
  else if c =? 10 then [92; 110]
  else if c =? 13 then [92; 114]
  else if c =? 9 then [92; 116]
  else if c =? 8 then [92; 98]
  else if c =? 12 then [92; 102]
  else if (0 <=? c) && (c <? 32)
       then [92; 117; 48; 48; hex_digit (c / 16); hex_digit (c mod 16)]
  else [c].

Definition json_quote (s : str) : str := [34] ++ flat_map json_escape_char s ++ [34].

(** [sep.join(parts)]. *)
Fixpoint join (sep : str) (parts : list str) : str :=
  match parts with
  | [] => []
  | [p] => p
  | p :: rest => p ++ sep ++ join sep rest
  end.

(** A newline and the indentation of nesting depth [level]. *)
Definition newline_indent (level : nat) : str :=
  newline :: repeat 32 (2 * level).

Fixpoint json_encode (level : nat) (v : json) : str :=
  match v with
  | JNull => [110; 117; 108; 108]
  | JBool true => [116; 114; 117; 101]
  | JBool false => [102; 97; 108; 115; 101]
  | JInt n => str_of_int n
  | JFloat x => float_json x
  | JString s => json_quote s
  | JArray [] => [91; 93]
  | JArray items =>
      [91] ++ newline_indent (S level)
      ++ join (44 :: newline_indent (S level))
           (map (json_encode (S level)) items)
      ++ newline_indent level ++ [93]
  | JObject [] => [123; 125]
  | JObject members =>
      [123] ++ newline_indent (S level)
      ++ join (44 :: newline_indent (S level))
           (map (fun kv => json_quote (fst kv) ++ [58; 32]
                           ++ json_encode (S level) (snd kv)) members)
      ++ newline_indent level ++ [125]
  end.

Definition json_dumps (data : json) : str := json_encode 0 data.

(* ===================================================================== *)
(** ** The history store *)
(* ===================================================================== *)

(** The store is the SQLite file at [DB_PATH].  The model covers the two
    statements the program executes, on files whose tables have the schema
    of [init_db]; opening a file and writing to it do not fail. *)

(** One row of the table [topics]. *)
Record topic_row := {
  row_id : Z;
  created_utc : str;
  content : str;
}.

(** A table with the schema of [init_db]: its rows in insertion order, and
    the largest rowid ever used, which SQLite keeps for an AUTOINCREMENT
    column (in [sqlite_sequence]). *)
Record table := {
  autoinc : Z;
  rows : list topic_row;
}.

(** A database file is its catalogue, from table name to table; the file
    system maps a path to the database stored there. *)
Abbreviation database := (gmap string table).
Abbreviation filesystem := (gmap str database).

Definition empty_table : table := {| autoinc := 0; rows := [] |}.

Definition max_rowid : Z := 9223372036854775807.

Definition largest_row_id (t : table) : Z :=
  foldr (fun r m => Z.max (row_id r) m) 0 (rows t).

(** The rowid AUTOINCREMENT gives the next row. *)
Definition next_rowid (t : table) : Z :=
  Z.max (autoinc t) (largest_row_id t) + 1.

(** [sqlite3.connect] on the names [:memory:] and the empty string opens a
    private database that is gone when the connection closes.  A name that
    starts with [file:] is read as a URI by an SQLite built to do so, and
    as the name of a file by the others; what it opens depends on the
    build, and the statements about what a file holds leave such names
    out ([uri_name]). *)
Definition s_memory : str := Eval vm_compute in utf8 ":memory:".

Definition uri_name (path : str) : bool := starts_with (utf8 "file:") path.

Definition transient (path : str) : bool :=
  bool_decide (path = []) || bool_decide (path = s_memory).

Definition connect (path : str) (fs : filesystem) : database :=
  if transient path then ∅ else default ∅ (fs !! path).

Definition commit (path : str) (db : database) (fs : filesystem) : filesystem :=
  if transient path then fs else <[path := db]> fs.

(** The rows of [topics] as a catalogue shows them. *)
Definition rows_in (db : database) : list topic_row :=
  match db !! "topics"%string with
  | Some t => rows t
  | None => []
  end.

(** [CREATE TABLE IF NOT EXISTS topics (...)]. *)
Definition create_topics (db : database) : database :=
  match db !! "topics"%string with
  | Some _ => db
  | None => <["topics"%string := empty_table]> db
  end.

(** A [str] is bound to a statement as UTF-8, which has no encoding for
    the surrogate code points. *)
Definition is_surrogate (c : codepoint) : bool := (55296 <=? c) && (c <=? 57343).

Definition has_surrogate (s : str) : bool := existsb is_surrogate s.

(** [INSERT INTO topics (created_utc, content) VALUES (?, ?)]: the
    statement is prepared, which needs the table, then the two values are
    bound, then the row is written. *)
Definition insert_topic (created text : str) (db : database) : result database :=
  match db !! "topics"%string with
  | None => Raise (OperationalError NoSuchTable)
  | Some t =>
      if has_surrogate created || has_surrogate text then Raise UnicodeEncodeError
      else if max_rowid <? next_rowid t then Raise (OperationalError DatabaseFull)
      else
        let row := {| row_id := next_rowid t; created_utc := created;
                      content := text |} in
        Ok (<["topics"%string :=
                {| autoinc := next_rowid t; rows := rows t ++ [row] |}]> db)
  end.

(* ===================================================================== *)
(** ** The process: configuration, requests, effects *)
(* ===================================================================== *)

Section App.

(** [int()] and [float()] on a [str] are the interpreter's; [F] stands for
    the floats, which the program only passes on. *)
Context {F : Type}.
Variable int_of_str : str -> option Z.
Variable float_of_str : str -> option F.

(** The module-level settings. *)
Record config := {
  OPENAI_API_KEY : option str;
  OPENAI_MODEL : str;
  TG_BOT_TOKEN : option str;
  TG_CHAT_ID : option str;
  MAX_TOKENS : Z;
  TEMPERATURE : F;
  DB_PATH : str;
  SEND_AS_MARKDOWN : bool;
}.

(** A Python value used as a condition: [None] and the empty string are
    false. *)
Definition truthy (o : option str) : bool :=
  match o with
  | Some (_ :: _) => true
  | _ => false
  end.

(** A value inside an f-string. *)
Definition fstr (o : option str) : str :=
  match o with
  | Some s => s
  | None => utf8 "None"
  end.

Definition int (s : str) : result Z :=
  match int_of_str s with
  | Some n => Ok n
  | None => Raise (ValueError s)
  end.

Definition float (s : str) : result F :=
  match float_of_str s with
  | Some x => Ok x
  | None => Raise (ValueError s)
  end.

Definition missing_env_message : str :=
  Eval vm_compute in
    utf8 "Chybí env proměnné. Nastav OPENAI_API_KEY, TG_BOT_TOKEN, TG_CHAT_ID.".

(** The statements of the module before [main] runs, in their order. *)
Definition load_config (environ : gmap string str) : result config :=
  let api_key := environ !! "OPENAI_API_KEY"%string in
  let model := default (utf8 "gpt-4o-mini") (environ !! "OPENAI_MODEL"%string) in
  let bot_token := environ !! "TG_BOT_TOKEN"%string in
  let chat_id := environ !! "TG_CHAT_ID"%string in
  match int (default (utf8 "600") (environ !! "MAX_TOKENS"%string)) with
  | Raise e => Raise e
  | Ok max_tokens =>
      match float (default (utf8 "0.4") (environ !! "TEMPERATURE"%string)) with
      | Raise e => Raise e
      | Ok temperature =>
          let db_path := default (utf8 "topics.db") (environ !! "DB_PATH"%string) in
          let markdown :=
            bool_decide (default (utf8 "1") (environ !! "SEND_AS_MARKDOWN"%string)
                         = utf8 "1") in
          if negb (truthy api_key && truthy bot_token && truthy chat_id)
          then Raise (SystemExit missing_env_message)
          else Ok {| OPENAI_API_KEY := api_key; OPENAI_MODEL := model;
                     TG_BOT_TOKEN := bot_token; TG_CHAT_ID := chat_id;
                     MAX_TOKENS := max_tokens; TEMPERATURE := temperature;
                     DB_PATH := db_path; SEND_AS_MARKDOWN := markdown |}
      end
  end.

Definition PROMPT : str :=
  Eval vm_compute in utf8 "
Jsi učitel, který každý den navrhne jedno praktické téma k samostudiu. Výstup dej v češtině přesně v tomto formátu:

Téma: <název>
Kategorie: <např. historie, programování, jazyky, věda>
Úroveň: <začátečník | středně | pokročilý>
Cíl učení (1 věta): <konkrétní měřitelný cíl>
10–30s shrnutí (co to je):
3 nápady, jak se tomu učit dnes (konkrétní činnosti, s časy):
Rychlé zdroje (1–3 odkazy nebo názvy knih / videí):
Následující krok na zítra (jedna věc):
Krátká motivační věta (max 20 slov).

Vygeneruj jedno originální téma — buď konkrétní a praktický. Nepiš nic jiného než výstup v přesném tvaru.
".

(** The two requests, by the fields the program sets. *)
Record openai_request := {
  oa_authorization : str;
  oa_model : str;
  oa_user_content : str;
  oa_max_tokens : Z;
  oa_temperature : F;
}.

Record telegram_request := {
  tg_url : str;
  tg_chat_id : option str;
  tg_text : str;
  tg_parse_mode : option str;
}.

(** What [requests.post] gives back: it raises (no connection, timeout), or
    returns a response with a status and a body, [None] when the body is
    not JSON. *)
Inductive http_reply :=
| NoReply
| Reply (status : Z) (body : option json).

(** Everything outside the process: the two endpoints and the clock. *)
Record world := {
  openai_post : openai_request -> http_reply;
  telegram_post : telegram_request -> http_reply;
  utcnow_isoformat : str;
  now_strftime : str;
}.

Inductive sql_stmt :=
| CreateTopics
| InsertTopic (created text : str).

Inductive output :=
| OutOpenAIError (e : exn)
| OutSuccess.

(** What an observer of the process sees, in order. *)
Inductive event :=
| EvPostOpenAI (req : openai_request)
| EvPostTelegram (req : telegram_request)
| EvCommit (path : str) (stmt : sql_stmt)
| EvPrint (o : output).

Record state := {
  files : filesystem;
  trace : list event;
}.

(** State and exceptions. *)
Definition M (A : Type) : Type := state -> result A * state.

Definition ret {A} (a : A) : M A := fun st => (Ok a, st).

Definition raise {A} (e : exn) : M A := fun st => (Raise e, st).

Definition bind {A B} (m : M A) (k : A -> M B) : M B :=
  fun st =>
    match m st with
    | (Ok a, st') => k a st'
    | (Raise e, st') => (Raise e, st')
    end.

Definition lift {A} (r : result A) : M A := fun st => (r, st).

(** [try: m  except Exception as e: handler e]. *)
Definition try_except {A} (m : M A) (handler : exn -> M A) : M A :=
  fun st =>
    match m st with
    | (Ok a, st') => (Ok a, st')
    | (Raise e, st') => if is_Exception e then handler e st' else (Raise e, st')
    end.

Definition emit (ev : event) : M unit :=
  fun st => (Ok tt, {| files := files st; trace := trace st ++ [ev] |}).

Definition get_files : M filesystem := fun st => (Ok (files st), st).

Definition put_files (fs : filesystem) : M unit :=
  fun st => (Ok tt, {| files := fs; trace := trace st |}).

Notation "x <- m ;; k" := (bind m (fun x => k))
  (at level 100, m at next level, right associativity).
Notation "m ;;; k" := (bind m (fun _ => k))
  (at level 100, right associativity).

Section Program.

Variable w : world.
Variable cfg : config.

Definition raise_for_status (status : Z) : result unit :=
  if (400 <=? status) && (status <? 600) then Raise (HTTPError status)
  else Ok tt.

(** [r.json()]. *)
Definition response_json (body : option json) : result json :=
  match body with
  | Some data => Ok data
  | None => Raise JSONDecodeError
  end.

(** [data["choices"][0]["message"]["content"]]. *)
Definition lookup_content (data : json) : result json :=
  match getitem data (KStr s_choices) with
  | Raise e => Raise e
  | Ok choices =>
      match getitem choices (KInt 0) with
      | Raise e => Raise e
      | Ok choice =>
          match getitem choice (KStr s_message) with
          | Raise e => Raise e
          | Ok message => getitem message (KStr s_content)
          end
      end
  end.

(** The [try] of [call_openai]: the content, or the dump of the body. *)
Definition extract_content (data : json) : result json :=
  match lookup_content data with
  | Ok v => Ok v
  | Raise e => if is_Exception e then Ok (JString (json_dumps data)) else Raise e
  end.

(** [content.strip()]: only a [str] has the method. *)
Definition content_strip (v : json) : result str :=
  match v with
  | JString s => Ok (strip s)
  | _ => Raise AttributeError
  end.

(** The payload of [call_openai], with the bearer token of its headers. *)
Definition openai_payload (prompt : str) : openai_request :=
  {| oa_authorization := utf8 "Bearer " ++ fstr (OPENAI_API_KEY cfg);
     oa_model := OPENAI_MODEL cfg;
     oa_user_content := prompt;
     oa_max_tokens := MAX_TOKENS cfg;
     oa_temperature := TEMPERATURE cfg |}.

(** What [call_openai] does with the reply of [requests.post]:
    [raise_for_status], [r.json()], the guarded lookup, [strip]. *)
Definition openai_content (reply : http_reply) : result str :=
  match reply with
  | NoReply => Raise RequestException
  | Reply status body =>
      match raise_for_status status with
      | Raise e => Raise e
      | Ok _ =>
          match response_json body with
          | Raise e => Raise e
          | Ok data =>
              match extract_content data with
              | Raise e => Raise e
              | Ok v => content_strip v
              end
          end
      end
  end.

Definition call_openai (prompt : str) : M str :=
  let payload := openai_payload prompt in
  emit (EvPostOpenAI payload) ;;;
  lift (openai_content (openai_post w payload)).

Definition init_db (path : str) : M unit :=
  fs <- get_files ;;
  let db := create_topics (connect path fs) in
  put_files (commit path db fs) ;;;
  emit (EvCommit path CreateTopics).

Definition save_topic (text : str) (path : str) : M unit :=
  fs <- get_files ;;
  db <- lift (insert_topic (utcnow_isoformat w) text (connect path fs)) ;;
  put_files (commit path db fs) ;;;
  emit (EvCommit path (InsertTopic (utcnow_isoformat w) text)).

(** The payload of [send_telegram], with the URL it is posted to. *)
Definition telegram_payload (text : str) : telegram_request :=
  {| tg_url := utf8 "https://api.telegram.org/bot" ++ fstr (TG_BOT_TOKEN cfg)
               ++ utf8 "/sendMessage";
     tg_chat_id := TG_CHAT_ID cfg;
     tg_text := text;
     tg_parse_mode :=
       if SEND_AS_MARKDOWN cfg then Some (utf8 "Markdown") else None |}.

(** What [send_telegram] does with the reply: [raise_for_status], then
    [r.json()] as its result. *)
Definition telegram_result (reply : http_reply) : result json :=
  match reply with
  | NoReply => Raise RequestException
  | Reply status body =>
      match raise_for_status status with
      | Raise e => Raise e
      | Ok _ => response_json body
      end
  end.

Definition send_telegram (text : str) : M json :=
  let payload := telegram_payload text in
  emit (EvPostTelegram payload) ;;;
  lift (telegram_result (telegram_post w payload)).

Definition main : M unit :=
  init_db (DB_PATH cfg) ;;;
  topic <- try_except (call_openai PROMPT)
             (fun e => emit (EvPrint (OutOpenAIError e)) ;;; raise e) ;;
  save_topic topic (DB_PATH cfg) ;;;
  send_telegram (msg_to_send (SEND_AS_MARKDOWN cfg) (now_strftime w) topic) ;;;
  emit (EvPrint OutSuccess).

End Program.

(** The script run as a process: the module-level statements, then
    [main()]. *)
Definition app (w : world) (environ : gmap string str) : M unit :=
  cfg <- lift (load_config environ) ;;
  main w cfg.

(** The file system after [init_db(path)]. *)
Definition after_init (path : str) (fs : filesystem) : filesystem :=
  commit path (create_topics (connect path fs)) fs.

(** The four ways a call of [main] goes, each with its result and the state
    it leaves: the generation fails, the insert fails, the notification
    fails, or all of it is done. *)
Inductive main_run (w : world) (cfg : config) (st : state)
  : result unit -> state -> Prop :=
| MainGenerateFails e :
    openai_content (openai_post w (openai_payload cfg PROMPT)) = Raise e ->
    main_run w cfg st (Raise e)
      {| files := after_init (DB_PATH cfg) (files st);
         trace := trace st
                  ++ [EvCommit (DB_PATH cfg) CreateTopics;
                      EvPostOpenAI (openai_payload cfg PROMPT);
                      EvPrint (OutOpenAIError e)] |}
| MainPersistFails topic e :
    openai_content (openai_post w (openai_payload cfg PROMPT)) = Ok topic ->
    insert_topic (utcnow_isoformat w) topic
      (connect (DB_PATH cfg) (after_init (DB_PATH cfg) (files st))) = Raise e ->
    main_run w cfg st (Raise e)
      {| files := after_init (DB_PATH cfg) (files st);
         trace := trace st
                  ++ [EvCommit (DB_PATH cfg) CreateTopics;
                      EvPostOpenAI (openai_payload cfg PROMPT)] |}
| MainNotifyFails topic db e :
    openai_content (openai_post w (openai_payload cfg PROMPT)) = Ok topic ->
    insert_topic (utcnow_isoformat w) topic
      (connect (DB_PATH cfg) (after_init (DB_PATH cfg) (files st))) = Ok db ->
    telegram_result
      (telegram_post w
         (telegram_payload cfg
            (msg_to_send (SEND_AS_MARKDOWN cfg) (now_strftime w) topic)))
      = Raise e ->
    main_run w cfg st (Raise e)
      {| files := commit (DB_PATH cfg) db (after_init (DB_PATH cfg) (files st));
         trace := trace st
                  ++ [EvCommit (DB_PATH cfg) CreateTopics;
                      EvPostOpenAI (openai_payload cfg PROMPT);
                      EvCommit (DB_PATH cfg)
                        (InsertTopic (utcnow_isoformat w) topic);
                      EvPostTelegram
                        (telegram_payload cfg
                           (msg_to_send (SEND_AS_MARKDOWN cfg)
                              (now_strftime w) topic))] |}
| MainDone topic db answer :
    openai_content (openai_post w (openai_payload cfg PROMPT)) = Ok topic ->
    insert_topic (utcnow_isoformat w) topic
      (connect (DB_PATH cfg) (after_init (DB_PATH cfg) (files st))) = Ok db ->
    telegram_result
      (telegram_post w
         (telegram_payload cfg
            (msg_to_send (SEND_AS_MARKDOWN cfg) (now_strftime w) topic)))
      = Ok answer ->
    main_run w cfg st (Ok tt)
      {| files := commit (DB_PATH cfg) db (after_init (DB_PATH cfg) (files st));
         trace := trace st
                  ++ [EvCommit (DB_PATH cfg) CreateTopics;
                      EvPostOpenAI (openai_payload cfg PROMPT);
                      EvCommit (DB_PATH cfg)
                        (InsertTopic (utcnow_isoformat w) topic);
                      EvPostTelegram
                        (telegram_payload cfg
                           (msg_to_send (SEND_AS_MARKDOWN cfg)
                              (now_strftime w) topic));
                      EvPrint OutSuccess] |}.

(** The exit status of the process: an uncaught exception, [SystemExit]
    with a message included, ends it with status 1. *)
Definition exit_status {A} (r : result A) : Z :=
  match r with
  | Ok _ => 0
  | Raise _ => 1
  end.

(** The rows of [topics] in the database at [path], none when the file or
    the table is not there. *)
Definition topic_rows (fs : filesystem) (path : str) : list topic_row :=
  match fs !! path with
  | Some db =>
      match db !! "topics"%string with
      | Some t => rows t
      | None => []
      end
  | None => []
  end.

End App.

(** The process started on the file system [fs]. *)
Definition run {F} (int_of_str : str -> option Z) (float_of_str : str -> option F)
    (w : world) (environ : gmap string str) (fs : filesystem)
    : result unit * state :=
  app int_of_str float_of_str w environ {| files := fs; trace := [] |}.

(** The store only grows: every file stays, every table of it stays, and
    the rows a table had are still its first rows. *)
Definition append_only (fs fs' : filesystem) : Prop :=
  forall path db, fs !! path = Some db ->
    exists db', fs' !! path = Some db'
      /\ forall name t, db !! name = Some t ->
           exists t', db' !! name = Some t' /\ rows t `prefix_of` rows t'.

(** The tables of a catalogue that go by the name [topics]. *)
Definition topics_tables (db : database) : database :=
  filter (fun kv => kv.1 = "topics"%string) db.

(** *** Readers for the examples

    [int()] and [float()] restricted to ASCII literals: surrounding
    whitespace, a sign, decimal digits with single underscores between
    them, and for a float a fractional part.  What the interpreter accepts
    beyond that (digits outside ASCII, exponents, [inf], [nan]) is rejected
    here; the theorems below hold for every reader, and these two only
    serve to run the process on concrete environments. *)
Definition is_digit (c : codepoint) : bool := (48 <=? c) && (c <=? 57).

Fixpoint digits_value (acc : Z) (after_digit : bool) (s : str) : option Z :=
  match s with
  | [] => if after_digit then Some acc else None
  | c :: s' =>
      if is_digit c then digits_value (acc * 10 + (c - 48)) true s'
      else if (c =? underscore) && after_digit then digits_value acc false s'
      else None
  end.

Definition int_ascii (s : str) : option Z :=
  match strip s with
  | 43 :: digits => digits_value 0 false digits
  | 45 :: digits => Z.opp <$> digits_value 0 false digits
  | digits => digits_value 0 false digits
  end.

Fixpoint decimal_body (seen_digit seen_point : bool) (s : str) : bool :=
  match s with
  | [] => seen_digit
  | c :: s' =>
      if is_digit c then decimal_body true seen_point s'
      else if (c =? 46) && negb seen_point then decimal_body seen_digit true s'
      else false
  end.

(** A float is represented by its literal without the whitespace. *)
Definition float_decimal (s : str) : option str :=
  let lit := strip s in
  let body := match lit with
              | 43 :: r => r
              | 45 :: r => r
              | _ => lit
              end in
  if decimal_body false false body then Some lit else None.

(** Worlds for the examples: the clock of both, an endpoint that is never
    reached, and a generation endpoint that answers with an error object
    while the messaging endpoint answers with status 500. *)
Definition unreachable_world : world (F:=str) :=
  {| openai_post := fun _ => NoReply;
     telegram_post := fun _ => NoReply;
     utcnow_isoformat := utf8 "2024-05-01T07:00:00.000000";
     now_strftime := utf8 "2024-05-01 08:00 UTC+01:00" |}.

Definition error_body : json :=
  JObject [(utf8 "error", JObject [(utf8 "message", JString (utf8 "quota"))])].

Definition failing_world : world (F:=str) :=
  {| openai_post := fun _ => Reply 200 (Some error_body);
     telegram_post := fun _ => Reply 500 None;
     utcnow_isoformat := utf8 "2024-05-01T07:00:00.000000";
     now_strftime := utf8 "2024-05-01 08:00 UTC+01:00" |}.



Definition credentials : gmap string str :=
  {[ "OPENAI_API_KEY"%string := utf8 "sk-test";
     "TG_BOT_TOKEN"%string := utf8 "123:abc";
     "TG_CHAT_ID"%string := utf8 "42" ]}.

(** The settings read from [credentials] alone. *)
Definition sample_config : config (F:=str) :=
  {| OPENAI_API_KEY := Some (utf8 "sk-test");
     OPENAI_MODEL := utf8 "gpt-4o-mini";
     TG_BOT_TOKEN := Some (utf8 "123:abc");
     TG_CHAT_ID := Some (utf8 "42");
     MAX_TOKENS := 600;
     TEMPERATURE := utf8 "0.4";
     DB_PATH := utf8 "topics.db";
     SEND_AS_MARKDOWN := true |}.

Definition fresh_state : state (F:=str) := {| files := ∅; trace := [] |}.

(** Texts for the examples of the length guard. *)
Definition long_text : str := repeat 97 4001.
Definition text_at_limit : str := repeat 97 4000.
Definition two_line_text : str := repeat 97 3000 ++ [newline] ++ repeat 97 2000.
Definition newline_first_text : str := newline :: repeat 97 4000.

Definition sample_now : str := Eval vm_compute in utf8 "2024-05-01 08:00 UTC+01:00".

(** An environment without credentials whose [MAX_TOKENS] is no integer. *)
Definition bad_max_tokens_environ : gmap string str :=
  {[ "MAX_TOKENS"%string := utf8 "abc" ]}.

(** The number of characters of a message the escaping prefixes. *)
Fixpoint count_meta (s : str) : Z :=
  match s with
  | [] => 0
  | c :: s' => (if is_meta c then 1 else 0) + count_meta s'
  end.

(** A topic of one long line, for the examples. *)
Definition one_line_topic : str := repeat 97 5000.

(** A body of the expected shape, with [v] at [choices[0].message.content],
    and a world whose endpoints give fixed replies. *)
Definition topic_body (v : json) : json :=
  JObject [(s_choices, JArray [JObject [(s_message, JObject [(s_content, v)])]])].

Definition world_replying (generation notification : http_reply)
    : world (F:=str) :=
  {| openai_post := fun _ => generation;
     telegram_post := fun _ => notification;
     utcnow_isoformat := utf8 "2024-05-01T07:00:00.000000";
     now_strftime := utf8 "2024-05-01 08:00 UTC+01:00" |}.

Definition padded_topic : str := Eval vm_compute in [32; 10] ++ utf8 "Téma: X" ++ [32; 10].

(** Requests in a trace, by endpoint. *)
Definition is_post_openai {F} (ev : event (F:=F)) : bool :=
  match ev with
  | EvPostOpenAI _ => true
  | _ => false
  end.

Definition is_post_telegram {F} (ev : event (F:=F)) : bool :=
  match ev with
  | EvPostTelegram _ => true
  | _ => false
  end.

Definition count_events {F} (p : event (F:=F) -> bool) (tr : list event) : nat :=
  length (List.filter p tr).

(** An environment with the credentials and an empty chat target. *)
Definition empty_chat_environ : gmap string str :=
  <["TG_CHAT_ID"%string := []]> credentials.

(** The credentials with [DB_PATH] naming a private database, and the
    settings read from them. *)
Definition memory_environ : gmap string str :=
  <["DB_PATH"%string := s_memory]> credentials.

Definition memory_config : config (F:=str) :=
  {| OPENAI_API_KEY := Some (utf8 "sk-test");
     OPENAI_MODEL := utf8 "gpt-4o-mini";
     TG_BOT_TOKEN := Some (utf8 "123:abc");
     TG_CHAT_ID := Some (utf8 "42");
     MAX_TOKENS := 600;
     TEMPERATURE := utf8 "0.4";
     DB_PATH := s_memory;
     SEND_AS_MARKDOWN := true |}.

(** A world in which both endpoints answer well. *)
Definition working_world : world (F:=str) :=
  world_replying (Reply 200 (Some (topic_body (JString padded_topic))))
    (Reply 200 (Some (JObject [(utf8 "ok", JBool true)]))).

(** A world in which the messaging endpoint answers with a page that is
    not JSON. *)
Definition html_reply_world : world (F:=str) :=
  world_replying (Reply 200 (Some (topic_body (JString padded_topic))))
    (Reply 200 None).

(* ===================================================================== *)
(** * Properties *)
(* ===================================================================== *)

Example truncation_marker_len : len truncation_marker = 44.
Proof. reflexivity. Qed.

Example header_prefix_codepoints :
  header_prefix = [128218; 32; 68; 101; 110; 110; 237; 32; 116; 233; 109; 97; 32; 8212; 32].
Proof. reflexivity. Qed.

(* ===================================================================== *)
(** ** Facts about the string primitives *)
(* ===================================================================== *)

Section StringFacts.

Implicit Types (s t : str) (c : codepoint).

Lemma len_app s t : len (s ++ t) = len s + len t.
Proof. unfold len. rewrite length_app. lia. Qed.

Lemma len_nonneg s : 0 <= len s.
Proof. unfold len. lia. Qed.

Lemma slice_to_nonneg s k : 0 <= k -> slice_to s k = take (Z.to_nat k) s.
Proof.
  intros Hk. unfold slice_to.
  destruct (Z.ltb_spec k 0) as [Hneg|_]; [lia | reflexivity].
Qed.

Lemma slice_to_len_le s k : len (slice_to s k) <= len s.
Proof. unfold slice_to, len. rewrite length_take. lia. Qed.

Lemma slice_to_len_exact s k :
  0 <= k <= len s -> len (slice_to s k) = k.
Proof.
  intros Hk. rewrite slice_to_nonneg by lia.
  unfold len in *. rewrite length_take. lia.
Qed.

Lemma starts_with_single c s :
  starts_with [c] s = match s with [] => false | b :: _ => c =? b end.
Proof. destruct s as [|b s']; simpl; [reflexivity | apply andb_true_r]. Qed.

(** What [rfind] returns for a one-character pattern: [last] when the
    character does not occur, and otherwise the index of its last
    occurrence. *)
Lemma rfind_from_single c s : forall i last,
  ((c ∉ s) /\ rfind_from [c] s i last = last)
  \/ (exists j : nat,
        rfind_from [c] s i last = i + Z.of_nat j
        /\ s !! j = Some c
        /\ forall k : nat, (j < k)%nat -> s !! k <> Some c).
Proof.
  induction s as [|b s' IH]; intros i last.
  - left. split; [apply not_elem_of_nil | reflexivity].
  - cbn [rfind_from]. rewrite starts_with_single.
    destruct (IH (i + 1) (if c =? b then i else last))
      as [[Hnot Hr] | (j & Hr & Hj & Hlast)].
    + destruct (Z.eqb_spec c b) as [->|Hne].
      * right. exists 0%nat. rewrite Hr. split; [lia|]. split; [reflexivity|].
        intros [|k] Hk; [lia|]. simpl. intros Hin.
        apply Hnot. eapply list_elem_of_lookup_2; eassumption.
      * left. split; [|assumption].
        rewrite not_elem_of_cons. split; assumption.
    + right. exists (S j). rewrite Hr. split; [lia|]. split; [exact Hj|].
      intros [|k] Hk; [lia|]. simpl. apply Hlast. lia.
Qed.

Lemma rfind_single_absent c s :
  (forall j : nat, s !! j <> Some c) -> rfind [c] s = -1.
Proof.
  intros Habs. unfold rfind.
  destruct (rfind_from_single c s 0 (-1)) as [[_ Hr] | (j & _ & Hj & _)].
  - exact Hr.
  - exfalso. exact (Habs j Hj).
Qed.

Lemma rfind_single_last c s (j : nat) :
  s !! j = Some c ->
  (forall k : nat, (j < k)%nat -> s !! k <> Some c) ->
  rfind [c] s = Z.of_nat j.
Proof.
  intros Hj Hlast. unfold rfind.
  destruct (rfind_from_single c s 0 (-1)) as [[Hnot _] | (j' & Hr & Hj' & Hlast')].
  - exfalso. apply Hnot. eapply list_elem_of_lookup_2; eassumption.
  - rewrite Hr. destruct (Nat.lt_trichotomy j j') as [Hlt | [-> | Hgt]].
    + exfalso. exact (Hlast j' Hlt Hj').
    + lia.
    + exfalso. exact (Hlast' j Hgt Hj).
Qed.

(** With a one-character [old], [replace] rewrites each character on its
    own. *)
Lemma replace_single c new s :
  replace [c] new s = flat_map (fun b => if c =? b then new else [b]) s.
Proof.
  unfold replace. induction s as [|b s' IH]; [reflexivity|].
  cbn [replace_go flat_map]. rewrite starts_with_single.
  cbn [length Nat.sub]. rewrite IH.
  destruct (c =? b); reflexivity.
Qed.

Lemma flat_map_flat_map (f g : codepoint -> str) s :
  flat_map g (flat_map f s) = flat_map (fun b => flat_map g (f b)) s.
Proof.
  induction s as [|b s' IH]; [reflexivity|].
  cbn [flat_map]. rewrite flat_map_app, IH. reflexivity.
Qed.

Lemma esc_flat_map s : esc s = flat_map esc_char s.
Proof.
  unfold esc. rewrite !replace_single, !flat_map_flat_map.
  apply flat_map_ext. intros b.
  unfold esc_char, is_meta, underscore, asterisk, backtick, open_bracket,
    backslash.
  destruct (Z.eq_dec b 95) as [->|N1]; [reflexivity|].
  destruct (Z.eq_dec b 42) as [->|N2]; [reflexivity|].
  destruct (Z.eq_dec b 96) as [->|N3]; [reflexivity|].
  destruct (Z.eq_dec b 91) as [->|N4]; [reflexivity|].
  assert (E1 : (95 =? b) = false) by (apply Z.eqb_neq; congruence).
  assert (E2 : (42 =? b) = false) by (apply Z.eqb_neq; congruence).
  assert (E3 : (96 =? b) = false) by (apply Z.eqb_neq; congruence).
  assert (E4 : (91 =? b) = false) by (apply Z.eqb_neq; congruence).
  rewrite (Z.eqb_sym b 95), (Z.eqb_sym b 42), (Z.eqb_sym b 96), (Z.eqb_sym b 91).
  rewrite E1. cbn [flat_map app]. rewrite E2. cbn [flat_map app].
  rewrite E3. cbn [flat_map app]. rewrite E4. reflexivity.
Qed.

Lemma esc_app s t : esc (s ++ t) = esc s ++ esc t.
Proof. rewrite !esc_flat_map. apply flat_map_app. Qed.

Lemma esc_len_ge s : len s <= len (esc s).
Proof.
  rewrite esc_flat_map. induction s as [|b s' IH]; [reflexivity|].
  cbn [flat_map]. rewrite len_app.
  assert (1 <= len (esc_char b))
    by (unfold esc_char; destruct (is_meta b); cbv; discriminate).
  unfold len in *. cbn [length]. lia.
Qed.

Lemma esc_repeat_underscore (n : nat) :
  len (esc (repeat underscore n)) = 2 * Z.of_nat n.
Proof.
  rewrite esc_flat_map. induction n as [|n IH]; [reflexivity|].
  cbn [repeat flat_map]. rewrite len_app, IH. unfold len. simpl length. lia.
Qed.

End StringFacts.

(* ===================================================================== *)
(** ** The length guard *)
(* ===================================================================== *)

Section LengthGuard.

Implicit Types (text : str) (limit : Z).

Lemma ensure_telegram_length_long text limit :
  limit < len text ->
  ensure_telegram_length text limit =
    (let cut := slice_to text (limit - 200) in
     if 0 <? rfind [newline] cut then slice_to cut (rfind [newline] cut) else cut)
    ++ truncation_marker.
Proof.
  intros Hlong. unfold ensure_telegram_length.
  destruct (Z.leb_spec (len text) limit) as [Hle|_]; [lia | reflexivity].
Qed.

Lemma ensure_telegram_length_within text limit :
  len text <= limit -> ensure_telegram_length text limit = text.
Proof.
  intros Hle. unfold ensure_telegram_length.
  destruct (Z.leb_spec (len text) limit) as [_|Hlt]; [reflexivity | lia].
Qed.

(** Whatever the limit, a shortened text ends with the marker. *)
Lemma ensure_telegram_length_marker text limit :
  limit < len text ->
  truncation_marker `suffix_of` ensure_telegram_length text limit.
Proof.
  intros Hlong. rewrite ensure_telegram_length_long by assumption.
  eexists. reflexivity.
Qed.

(** From a limit of 200 on, the cut has [limit - 200] characters and the
    marker fits in the 200 left. *)
Lemma ensure_telegram_length_fits text limit :
  200 <= limit -> limit < len text ->
  len (ensure_telegram_length text limit) <= limit.
Proof.
  intros Hlim Hlong. rewrite ensure_telegram_length_long by assumption.
  cbv zeta. rewrite len_app.
  assert (Hcut : len (slice_to text (limit - 200)) = limit - 200)
    by (apply slice_to_len_exact; lia).
  change (len truncation_marker) with 44.
  destruct (0 <? rfind [newline] (slice_to text (limit - 200))).
  - pose proof (slice_to_len_le (slice_to text (limit - 200))
                  (rfind [newline] (slice_to text (limit - 200)))).
    lia.
  - lia.
Qed.

(** Below 200 the slice [text[:limit-200]] counts from the end of the text,
    and the result can be longer than the limit. *)
Example ensure_telegram_length_small_limit :
  len (ensure_telegram_length (repeat 97 1000) 100) = 944.
Proof. vm_compute. reflexivity. Qed.

(** The cut backs up to a newline only when [rfind] gives an index above 0. *)
Lemma rfind_newline_at_most_0 (cut : str) :
  (forall j : nat, (0 < j)%nat -> cut !! j <> Some newline) ->
  rfind [newline] cut <= 0.
Proof.
  intros Hnone. unfold rfind.
  destruct (rfind_from_single newline cut 0 (-1)) as [[_ ->] | (j & -> & Hj & _)].
  - lia.
  - destruct j as [|j]; [lia|]. exfalso. apply (Hnone (S j)); [lia | exact Hj].
Qed.

Lemma lookup_repeat_Some (x y : codepoint) (n k : nat) :
  repeat x n !! k = Some y -> y = x.
Proof.
  intros Hk. apply list_elem_of_lookup_2, list_elem_of_In in Hk.
  exact (repeat_spec _ _ _ Hk).
Qed.

(** C1. A text longer than the limit of 4000 comes back no longer than the
    limit, and ending with the truncation marker. *)
Theorem ensure_telegram_length_truncates text :
  default_limit < len text ->
  len (ensure_telegram_length text default_limit) <= default_limit
  /\ truncation_marker `suffix_of` ensure_telegram_length text default_limit.
Proof.
  intros Hlong. split.
  - apply ensure_telegram_length_fits; [unfold default_limit; lia | assumption].
  - apply ensure_telegram_length_marker. assumption.
Qed.

Lemma ensure_telegram_length_truncates_witness :
  default_limit < len long_text
  /\ len (ensure_telegram_length long_text default_limit) <= default_limit
  /\ truncation_marker `suffix_of` ensure_telegram_length long_text default_limit.
Proof.
  assert (Hlong : default_limit < len long_text) by (vm_compute; reflexivity).
  split; [exact Hlong|].
  exact (ensure_telegram_length_truncates long_text Hlong).
Defined.

(** C2, as amended.  A text longer than the limit is cut as [text[:limit-200]]
    cuts it.  When the cut holds a newline at an index above 0, the result
    is the text up to the last such newline, followed by the marker; when
    it holds none at an index above 0, the result is the whole cut followed
    by the marker.  From a limit of 200 on, the cut is the first
    [limit - 200] characters. *)
Theorem ensure_telegram_length_line_boundary text limit :
  limit < len text ->
  let cut := slice_to text (limit - 200) in
  (forall j : nat,
      (0 < j)%nat -> cut !! j = Some newline ->
      (forall k : nat, (j < k)%nat -> cut !! k <> Some newline) ->
      ensure_telegram_length text limit = take j text ++ truncation_marker)
  /\ ((forall j : nat, (0 < j)%nat -> cut !! j <> Some newline) ->
      ensure_telegram_length text limit = cut ++ truncation_marker)
  /\ (200 <= limit -> cut = take (Z.to_nat (limit - 200)) text).
Proof.
  intros Hlong cut. split; [|split].
  - intros j Hpos Hj Hlast.
    rewrite ensure_telegram_length_long by assumption. cbv zeta. fold cut.
    rewrite (rfind_single_last newline cut j Hj Hlast).
    destruct (Z.ltb_spec 0 (Z.of_nat j)) as [_|Hle]; [|lia].
    rewrite slice_to_nonneg by lia. rewrite Nat2Z.id.
    f_equal. subst cut. unfold slice_to in *.
    apply lookup_lt_Some in Hj. rewrite length_take in Hj.
    rewrite take_take. f_equal. lia.
  - intros Hnone.
    rewrite ensure_telegram_length_long by assumption. cbv zeta. fold cut.
    pose proof (rfind_newline_at_most_0 cut Hnone) as Hr.
    destruct (Z.ltb_spec 0 (rfind [newline] cut)) as [Hlt|_]; [lia | reflexivity].
  - intros Hlim. subst cut. apply slice_to_nonneg. lia.
Qed.

Lemma ensure_telegram_length_line_boundary_witness :
  default_limit < len two_line_text
  /\ ensure_telegram_length two_line_text default_limit
     = repeat 97 3000 ++ truncation_marker.
Proof.
  assert (Hlong : default_limit < len two_line_text) by (vm_compute; reflexivity).
  split; [exact Hlong|].
  destruct (ensure_telegram_length_line_boundary two_line_text default_limit Hlong)
    as [Hback _].
  rewrite (Hback 3000%nat).
  - vm_compute. reflexivity.
  - lia.
  - vm_compute. reflexivity.
  - intros k Hk Hnl.
    change (slice_to two_line_text (default_limit - 200))
      with (repeat 97 3000 ++ [newline] ++ repeat 97 799) in Hnl.
    rewrite lookup_app_r in Hnl by (rewrite repeat_length; lia).
    rewrite repeat_length in Hnl.
    destruct (k - 3000)%nat as [|k'] eqn:Ek; [lia|].
    change (repeat 97 799 !! k' = Some newline) in Hnl.
    apply lookup_repeat_Some in Hnl. discriminate.
Defined.

(** C2 as the specification words it fails when the only newline of the cut is
    its first character: the cut holds a line boundary, at index 0, which
    [rfind] finds, and the text is not backed up to it. *)
Lemma ensure_telegram_length_newline_at_0 :
  default_limit < len newline_first_text
  /\ slice_to newline_first_text (default_limit - 200) !! 0%nat = Some newline
  /\ rfind [newline] (slice_to newline_first_text (default_limit - 200)) = 0
  /\ ensure_telegram_length newline_first_text default_limit
     = slice_to newline_first_text (default_limit - 200) ++ truncation_marker
  /\ ensure_telegram_length newline_first_text default_limit
     <> slice_to (slice_to newline_first_text (default_limit - 200)) 0
        ++ truncation_marker.
Proof.
  split; [vm_compute; reflexivity|].
  split; [vm_compute; reflexivity|].
  split; [vm_compute; reflexivity|].
  split; [vm_compute; reflexivity|].
  intros Heq. apply (f_equal len) in Heq. vm_compute in Heq. discriminate.
Qed.

(** C3. A text no longer than the limit comes back as it is. *)
Theorem ensure_telegram_length_short text limit :
  len text <= limit -> ensure_telegram_length text limit = text.
Proof. apply ensure_telegram_length_within. Qed.

Lemma ensure_telegram_length_short_witness :
  len text_at_limit <= default_limit
  /\ ensure_telegram_length text_at_limit default_limit = text_at_limit.
Proof.
  assert (Hle : len text_at_limit <= default_limit) by (vm_compute; discriminate).
  split; [exact Hle|].
  exact (ensure_telegram_length_short text_at_limit default_limit Hle).
Defined.

End LengthGuard.

(* ===================================================================== *)
(** ** The Markdown escaping *)
(* ===================================================================== *)

Section Escaping.

Implicit Types (msg : str) (c : codepoint).

Lemma backslash_not_meta : is_meta backslash = false.
Proof. reflexivity. Qed.

(** In a string built by [esc_char], a metacharacter is never first and
    always follows a backslash. *)
Lemma flat_map_esc_char_preceded msg : forall (i : nat) c,
  flat_map esc_char msg !! i = Some c -> is_meta c = true ->
  exists j : nat, i = S j /\ flat_map esc_char msg !! j = Some backslash.
Proof.
  induction msg as [|b msg' IH]; intros i c Hi Hmeta.
  - destruct i; discriminate.
  - cbn [flat_map] in *. unfold esc_char at 1 in Hi. unfold esc_char at 1.
    destruct (is_meta b) eqn:Hb.
    + destruct i as [|[|i]].
      * simpl in Hi. injection Hi as <-.
        rewrite backslash_not_meta in Hmeta. discriminate.
      * exists 0%nat. split; reflexivity.
      * simpl in Hi. destruct (IH i c Hi Hmeta) as (j & -> & Hj).
        exists (S (S j)). split; [reflexivity | exact Hj].
    + destruct i as [|i].
      * simpl in Hi. injection Hi as <-. congruence.
      * simpl in Hi. destruct (IH i c Hi Hmeta) as (j & -> & Hj).
        exists (S j). split; [reflexivity | exact Hj].
Qed.

(** C4. The escaped message is the message with a backslash put before
    each underscore, asterisk, backtick and open bracket, every character
    otherwise kept and in its place; so each of the four is, in the output,
    right after a backslash. *)
Theorem esc_prefixes_metacharacters msg :
  esc msg = flat_map esc_char msg
  /\ forall (i : nat) c,
       esc msg !! i = Some c -> is_meta c = true ->
       exists j : nat, i = S j /\ esc msg !! j = Some backslash.
Proof.
  split; [apply esc_flat_map|].
  rewrite esc_flat_map. apply flat_map_esc_char_preceded.
Qed.

Example esc_sample :
  esc (utf8 "a_b*c`d[e]\f") = utf8 "a\_b\*c\`d\[e]\f".
Proof. vm_compute. reflexivity. Qed.

End Escaping.

(* ===================================================================== *)
(** ** The message handed to [send_telegram] *)
(* ===================================================================== *)

Section Message.

Lemma strip_underscores : strip (repeat underscore 3000) = repeat underscore 3000.
Proof. vm_compute. reflexivity. Qed.

Lemma header_len (now : str) : len (header now) = len now + 17.
Proof.
  unfold header. rewrite !len_app.
  change (len header_prefix) with 15. change (len [newline; newline]) with 2. lia.
Qed.

(** C10. The escaping runs after the length guard and adds a backslash for
    each metacharacter: for a local time of ordinary length, a topic of 3000
    underscores, which [call_openai] can return, passes the guard within the
    limit and is sent as a text longer than the limit. *)
Theorem msg_to_send_exceeds_limit (now : str) :
  len now <= 100 ->
  exists topic : str,
    strip topic = topic
    /\ len (ensure_telegram_length (header now ++ topic) default_limit)
       <= default_limit
    /\ default_limit < len (msg_to_send true now topic).
Proof.
  intros Hnow. exists (repeat underscore 3000).
  assert (Hmsg : len (header now ++ repeat underscore 3000) <= default_limit).
  { rewrite len_app, header_len. unfold len at 2. rewrite repeat_length.
    unfold default_limit. pose proof (len_nonneg now). lia. }
  split; [apply strip_underscores|]. split.
  - rewrite ensure_telegram_length_within by assumption. exact Hmsg.
  - unfold msg_to_send. rewrite ensure_telegram_length_within by assumption.
    rewrite esc_app, len_app, esc_repeat_underscore.
    pose proof (esc_len_ge (header now)). pose proof (len_nonneg (header now)).
    unfold default_limit. lia.
Qed.

Lemma msg_to_send_exceeds_limit_witness :
  len sample_now <= 100
  /\ exists topic : str,
       strip topic = topic
       /\ len (ensure_telegram_length (header sample_now ++ topic) default_limit)
          <= default_limit
       /\ default_limit < len (msg_to_send true sample_now topic).
Proof.
  assert (Hnow : len sample_now <= 100) by (vm_compute; discriminate).
  split; [exact Hnow|].
  exact (msg_to_send_exceeds_limit sample_now Hnow).
Defined.

(** The marker itself grows under the escaping: its two asterisks. *)
Example esc_truncation_marker_len : len (esc truncation_marker) = 46.
Proof. vm_compute. reflexivity. Qed.

End Message.

(* ===================================================================== *)
(** ** Decoding the generation reply *)
(* ===================================================================== *)

Section Decoding.

Lemma seq_index_0 {A} (l : list A) : seq_index l 0 = l !! 0%nat.
Proof. reflexivity. Qed.

Lemma getitem_Exception v k e : getitem v k = Raise e -> is_Exception e = true.
Proof.
  destruct v, k; simpl; intros H;
    repeat match type of H with
           | context [match ?x with _ => _ end] => destruct x
           end;
    inversion H; reflexivity.
Qed.

Lemma lookup_content_Exception data e :
  lookup_content data = Raise e -> is_Exception e = true.
Proof.
  unfold lookup_content. intros H.
  destruct (getitem data (KStr s_choices)) as [choices|e1] eqn:H1;
    [|inversion H; subst; eapply getitem_Exception; eassumption].
  destruct (getitem choices (KInt 0)) as [choice|e2] eqn:H2;
    [|inversion H; subst; eapply getitem_Exception; eassumption].
  destruct (getitem choice (KStr s_message)) as [message|e3] eqn:H3;
    [|inversion H; subst; eapply getitem_Exception; eassumption].
  eapply getitem_Exception; eassumption.
Qed.

(** The subscripts of [call_openai] succeed exactly on the bodies that
    carry the field path, and give the value found there. *)
Lemma lookup_content_found data v :
  content_at_path data = Some v -> lookup_content data = Ok v.
Proof.
  unfold content_at_path, lookup_content. intros H.
  destruct data as [| | | | |?|top]; try discriminate. cbn [getitem].
  destruct (dict_get s_choices top) as [[| | | | |items|?]|]; try discriminate.
  destruct items as [|[| | | | |?|choice] ?]; try discriminate.
  cbn [getitem]. rewrite seq_index_0. cbn [lookup list_lookup getitem].
  destruct (dict_get s_message choice) as [[| | | | |?|message]|];
    try discriminate.
  cbn [getitem]. rewrite H. reflexivity.
Qed.

Lemma lookup_content_missing data :
  content_at_path data = None -> exists e, lookup_content data = Raise e.
Proof.
  unfold content_at_path, lookup_content. intros H.
  destruct data as [| | | | |?|top]; try (eexists; reflexivity).
  cbn [getitem].
  destruct (dict_get s_choices top) as [[| | | | s |items|?]|];
    try (eexists; reflexivity).
  - cbn [getitem]. rewrite seq_index_0.
    destruct (s !! 0%nat); eexists; reflexivity.
  - cbn [getitem]. rewrite seq_index_0.
    destruct items as [|[| | | | |?|choice] ?]; try (eexists; reflexivity).
    cbn [lookup list_lookup getitem].
    destruct (dict_get s_message choice) as [[| | | | |?|message]|];
      try (eexists; reflexivity).
    cbn [getitem]. rewrite H. eexists; reflexivity.
Qed.

Lemma extract_content_missing data :
  content_at_path data = None ->
  extract_content data = Ok (JString (json_dumps data)).
Proof.
  intros H. unfold extract_content.
  destruct (lookup_content_missing data H) as [e He]. rewrite He.
  rewrite (lookup_content_Exception data e He). reflexivity.
Qed.

Lemma extract_content_found data v :
  content_at_path data = Some v -> extract_content data = Ok v.
Proof.
  intros H. unfold extract_content. rewrite (lookup_content_found data v H).
  reflexivity.
Qed.

Lemma extract_content_total data : exists v, extract_content data = Ok v.
Proof.
  destruct (content_at_path data) as [v|] eqn:H.
  - exists v. apply extract_content_found. assumption.
  - eexists. apply extract_content_missing. assumption.
Qed.

Lemma raise_for_status_ok status :
  ~ (400 <= status < 600) -> raise_for_status status = Ok tt.
Proof.
  intros H. unfold raise_for_status.
  destruct (Z.leb_spec 400 status), (Z.ltb_spec status 600); simpl;
    try reflexivity. lia.
Qed.

Lemma raise_for_status_error status :
  400 <= status < 600 -> raise_for_status status = Raise (HTTPError status).
Proof.
  intros [H1 H2]. unfold raise_for_status.
  destruct (Z.leb_spec 400 status), (Z.ltb_spec status 600); simpl;
    try reflexivity; lia.
Qed.

Lemma raise_for_status_Exception status e :
  raise_for_status status = Raise e -> is_Exception e = true.
Proof.
  unfold raise_for_status.
  destruct ((400 <=? status) && (status <? 600)); intros H; inversion H.
  reflexivity.
Qed.

(** Nothing [call_openai] raises escapes [except Exception]. *)
Lemma openai_content_Exception reply e :
  openai_content reply = Raise e -> is_Exception e = true.
Proof.
  unfold openai_content. intros H.
  destruct reply as [|status body]; [inversion H; reflexivity|].
  destruct (raise_for_status status) eqn:Hs;
    [|inversion H; subst; eapply raise_for_status_Exception; eassumption].
  destruct body as [data|]; cbn [response_json] in H;
    [|inversion H; reflexivity].
  destruct (extract_content_total data) as [v Hv]. rewrite Hv in H.
  destruct v; inversion H; reflexivity.
Qed.


End Decoding.

(* ===================================================================== *)
(** ** The store operations *)
(* ===================================================================== *)

Section Store.

Implicit Types (fs : filesystem) (db : database) (path : str).

Lemma connect_persistent path fs :
  transient path = false -> connect path fs = default ∅ (fs !! path).
Proof. intros H. unfold connect. rewrite H. reflexivity. Qed.

Lemma connect_transient path fs : transient path = true -> connect path fs = ∅.
Proof. intros H. unfold connect. rewrite H. reflexivity. Qed.

Lemma create_topics_has_table db : is_Some (create_topics db !! "topics"%string).
Proof.
  unfold create_topics. destruct (db !! "topics"%string) as [t|] eqn:H.
  - rewrite H. eauto.
  - rewrite lookup_insert_eq. eauto.
Qed.

Lemma create_topics_idempotent db :
  create_topics (create_topics db) = create_topics db.
Proof.
  destruct (create_topics_has_table db) as [t Ht].
  unfold create_topics at 1. rewrite Ht. reflexivity.
Qed.

Lemma create_topics_rows db : rows_in (create_topics db) = rows_in db.
Proof.
  unfold rows_in, create_topics.
  destruct (db !! "topics"%string) as [t|] eqn:H.
  - rewrite H. reflexivity.
  - rewrite lookup_insert_eq. reflexivity.
Qed.

Lemma create_topics_keeps db name t :
  db !! name = Some t -> create_topics db !! name = Some t.
Proof.
  intros H. unfold create_topics.
  destruct (db !! "topics"%string) as [t'|] eqn:Ht; [assumption|].
  rewrite lookup_insert_ne; [assumption|]. intros <-. congruence.
Qed.

Lemma topic_rows_rows_in fs path :
  topic_rows fs path = rows_in (default ∅ (fs !! path)).
Proof.
  unfold topic_rows, rows_in. destruct (fs !! path) as [db|]; [reflexivity|].
  simpl. rewrite lookup_empty. reflexivity.
Qed.

(** [init_db] changes no row of any file. *)
Lemma after_init_topic_rows path fs p :
  topic_rows (after_init path fs) p = topic_rows fs p.
Proof.
  unfold after_init, commit. destruct (transient path) eqn:Htr; [reflexivity|].
  rewrite connect_persistent by assumption.
  rewrite !topic_rows_rows_in. destruct (decide (path = p)) as [->|Hne].
  - rewrite lookup_insert_eq. simpl. apply create_topics_rows.
  - rewrite lookup_insert_ne by assumption. reflexivity.
Qed.

Lemma connect_after_init path fs :
  transient path = false ->
  connect path (after_init path fs) = create_topics (default ∅ (fs !! path)).
Proof.
  intros Htr. unfold after_init, commit. rewrite Htr.
  rewrite !connect_persistent by assumption.
  rewrite lookup_insert_eq. reflexivity.
Qed.

(** A second [init_db] finds the table and changes nothing. *)
Lemma after_init_idempotent path fs :
  after_init path (after_init path fs) = after_init path fs.
Proof.
  destruct (transient path) eqn:Htr.
  - unfold after_init, commit. rewrite Htr. reflexivity.
  - unfold after_init at 1. rewrite connect_after_init by assumption.
    rewrite create_topics_idempotent.
    unfold after_init, commit. rewrite Htr.
    rewrite connect_persistent by assumption.
    apply insert_insert_eq.
Qed.

Lemma insert_topic_transient created text path fs :
  transient path = true ->
  insert_topic created text (connect path fs) = Raise (OperationalError NoSuchTable).
Proof.
  intros Htr. rewrite connect_transient by assumption.
  unfold insert_topic. rewrite lookup_empty. reflexivity.
Qed.

(** What a successful insert found and what it wrote. *)
Lemma insert_topic_inv created text db db' :
  insert_topic created text db = Ok db' ->
  exists t,
    db !! "topics"%string = Some t
    /\ has_surrogate created = false /\ has_surrogate text = false
    /\ next_rowid t <= max_rowid
    /\ db' = <["topics"%string :=
                {| autoinc := next_rowid t;
                   rows := rows t
                           ++ [{| row_id := next_rowid t; created_utc := created;
                                  content := text |}] |}]> db.
Proof.
  unfold insert_topic. intros H.
  destruct (db !! "topics"%string) as [t|]; [|discriminate].
  destruct (has_surrogate created) eqn:Hc; [discriminate|].
  destruct (has_surrogate text) eqn:Ht; [discriminate|].
  cbn [orb] in H.
  destruct (Z.ltb_spec max_rowid (next_rowid t)) as [|Hroom]; [discriminate|].
  injection H as <-. exists t. repeat split; try reflexivity. exact Hroom.
Qed.

(** A successful insert adds one row at the end of [topics], with the
    given time and text, and touches no other table. *)
Lemma insert_topic_Ok created text db db' :
  insert_topic created text db = Ok db' ->
  exists id,
    rows_in db' = rows_in db
                  ++ [{| row_id := id; created_utc := created; content := text |}]
    /\ forall name, name <> "topics"%string -> db' !! name = db !! name.
Proof.
  intros H. destruct (insert_topic_inv _ _ _ _ H) as (t & Ht & _ & _ & _ & ->).
  unfold rows_in. exists (next_rowid t). split.
  - rewrite lookup_insert_eq, Ht. reflexivity.
  - intros name Hne. rewrite lookup_insert_ne by congruence. reflexivity.
Qed.

Lemma insert_topic_Raise created text db e :
  insert_topic created text db = Raise e ->
  e = UnicodeEncodeError \/ exists why, e = OperationalError why.
Proof.
  unfold insert_topic. intros H.
  destruct (db !! "topics"%string) as [t|]; [|inversion H; eauto].
  destruct (has_surrogate created || has_surrogate text); [inversion H; eauto|].
  destruct (max_rowid <? next_rowid t); inversion H; eauto.
Qed.

Lemma commit_topic_rows_same path db fs :
  transient path = false -> topic_rows (commit path db fs) path = rows_in db.
Proof.
  intros Htr. unfold commit. rewrite Htr, topic_rows_rows_in.
  rewrite lookup_insert_eq. reflexivity.
Qed.

Lemma commit_topic_rows_other path db fs p :
  p <> path -> topic_rows (commit path db fs) p = topic_rows fs p.
Proof.
  intros Hne. unfold commit. destruct (transient path); [reflexivity|].
  unfold topic_rows. rewrite lookup_insert_ne by congruence. reflexivity.
Qed.

(** *** The store only grows *)

Lemma append_only_refl fs : append_only fs fs.
Proof.
  intros path db Hdb. exists db. split; [assumption|].
  intros name t Ht. exists t. split; [assumption | reflexivity].
Qed.

Lemma append_only_trans fs1 fs2 fs3 :
  append_only fs1 fs2 -> append_only fs2 fs3 -> append_only fs1 fs3.
Proof.
  intros H12 H23 path db1 Hdb1.
  destruct (H12 path db1 Hdb1) as (db2 & Hdb2 & Ht12).
  destruct (H23 path db2 Hdb2) as (db3 & Hdb3 & Ht23).
  exists db3. split; [assumption|].
  intros name t1 Ht1.
  destruct (Ht12 name t1 Ht1) as (t2 & Ht2 & Hp12).
  destruct (Ht23 name t2 Ht2) as (t3 & Ht3 & Hp23).
  exists t3. split; [assumption|]. etrans; eassumption.
Qed.

(** Writing back a catalogue that extends the one read extends the file
    system. *)
Lemma commit_append_only path db' fs :
  (forall name t, connect path fs !! name = Some t ->
     exists t', db' !! name = Some t' /\ rows t `prefix_of` rows t') ->
  append_only fs (commit path db' fs).
Proof.
  intros Hext. unfold commit. destruct (transient path) eqn:Htr;
    [apply append_only_refl|].
  intros p db Hdb. destruct (decide (path = p)) as [->|Hne].
  - exists db'. rewrite lookup_insert_eq. split; [reflexivity|].
    intros name t Ht. apply Hext.
    rewrite connect_persistent by assumption. rewrite Hdb. exact Ht.
  - exists db. rewrite lookup_insert_ne by assumption. split; [assumption|].
    intros name t Ht. exists t. split; [assumption | reflexivity].
Qed.

Lemma after_init_append_only path fs : append_only fs (after_init path fs).
Proof.
  apply commit_append_only. intros name t Ht. exists t.
  split; [apply create_topics_keeps; assumption | reflexivity].
Qed.

Lemma insert_topic_append_only created text path db' fs :
  insert_topic created text (connect path fs) = Ok db' ->
  append_only fs (commit path db' fs).
Proof.
  intros Hins. apply commit_append_only. intros name t Ht.
  destruct (insert_topic_inv _ _ _ _ Hins) as (t0 & Ht0 & _ & _ & _ & ->).
  destruct (decide (name = "topics"%string)) as [->|Hne].
  - rewrite lookup_insert_eq. eexists. split; [reflexivity|].
    rewrite Ht0 in Ht. injection Ht as <-. simpl. apply prefix_app_r. reflexivity.
  - rewrite lookup_insert_ne by congruence. exists t.
    split; [assumption | reflexivity].
Qed.

(** A catalogue with a table [topics] has exactly one table of that name. *)
Lemma topics_tables_size db :
  is_Some (db !! "topics"%string) -> size (topics_tables db) = 1%nat.
Proof.
  intros [t Ht]. unfold topics_tables.
  assert (Heq : filter (fun kv : string * table => kv.1 = "topics"%string) db
                = {[ "topics"%string := t ]}).
  { apply map_eq. intros name. apply option_eq. intros t'.
    rewrite map_lookup_filter_Some, lookup_singleton_Some. simpl.
    split.
    - intros [Hl ->]. split; [reflexivity | congruence].
    - intros [<- <-]. split; [assumption | reflexivity]. }
  rewrite Heq. apply map_size_singleton.
Qed.

End Store.

(* ===================================================================== *)
(** ** The runs of [main] *)
(* ===================================================================== *)

Section Runs.

Context {F : Type}.
Variable int_of_str : str -> option Z.
Variable float_of_str : str -> option F.

Implicit Types (w : world (F:=F)) (cfg : config (F:=F)) (st : state (F:=F)).

Lemma init_db_run path st :
  init_db path st
  = (Ok tt, {| files := after_init path (files st);
               trace := trace st ++ [EvCommit path CreateTopics] |}).
Proof. reflexivity. Qed.

Lemma call_openai_run w cfg prompt st :
  call_openai w cfg prompt st
  = (openai_content (openai_post w (openai_payload cfg prompt)),
     {| files := files st;
        trace := trace st ++ [EvPostOpenAI (openai_payload cfg prompt)] |}).
Proof. reflexivity. Qed.

(** Every call of [main] is one of the four runs. *)
Lemma main_run_main w cfg st :
  main_run w cfg st (main w cfg st).1 (main w cfg st).2.
Proof.
  unfold main, bind, try_except. rewrite init_db_run, call_openai_run.
  destruct (openai_content (openai_post w (openai_payload cfg PROMPT)))
    as [topic|e] eqn:Hgen.
  - unfold save_topic, bind, get_files, lift, put_files, emit. cbn [files trace].
    destruct (insert_topic (utcnow_isoformat w) topic
                (connect (DB_PATH cfg) (after_init (DB_PATH cfg) (files st))))
      as [db|e] eqn:Hins.
    + unfold send_telegram, bind, emit, lift. cbn [files trace].
      destruct (telegram_result
                  (telegram_post w
                     (telegram_payload cfg
                        (msg_to_send (SEND_AS_MARKDOWN cfg) (now_strftime w) topic))))
        as [answer|e] eqn:Htg.
      * cbn [fst snd files trace]. rewrite <- !app_assoc. cbn [app].
        eapply MainDone; eassumption.
      * cbn [fst snd]. rewrite <- !app_assoc. cbn [app].
        eapply MainNotifyFails; eassumption.
    + cbn [fst snd]. rewrite <- !app_assoc. cbn [app].
      eapply MainPersistFails; eassumption.
  - rewrite (openai_content_Exception _ _ Hgen).
    unfold bind, emit, raise. cbn [fst snd files trace].
    rewrite <- !app_assoc. cbn [app].
    eapply MainGenerateFails; eassumption.
Qed.

Lemma main_run_of w cfg st r st' :
  main w cfg st = (r, st') -> main_run w cfg st r st'.
Proof.
  intros H. pose proof (main_run_main w cfg st) as Hrun.
  rewrite H in Hrun. exact Hrun.
Qed.

(** The process: the settings are read, then [main] runs. *)
Lemma run_loaded w environ fs cfg :
  load_config int_of_str float_of_str environ = Ok cfg ->
  run int_of_str float_of_str w environ fs
  = main w cfg {| files := fs; trace := [] |}.
Proof. intros H. unfold run, app, bind, lift. rewrite H. reflexivity. Qed.

Lemma run_not_loaded w environ fs e :
  load_config int_of_str float_of_str environ = Raise e ->
  run int_of_str float_of_str w environ fs
  = (Raise e, {| files := fs; trace := [] |}).
Proof. intros H. unfold run, app, bind, lift. rewrite H. reflexivity. Qed.

(** *** Missing credentials *)

(** C5, as amended.  When a required credential is missing, the process
    ends with exit status 1 and has done nothing: no request, no store
    operation.  It ends with [SystemExit] and the message naming the three
    variables when the values of [MAX_TOKENS] and [TEMPERATURE] are
    accepted by [int()] and [float()], and with the [ValueError] of the
    conversion that fails otherwise. *)
Theorem missing_credential_aborts w environ fs :
  environ !! "OPENAI_API_KEY"%string = None
  \/ environ !! "TG_BOT_TOKEN"%string = None
  \/ environ !! "TG_CHAT_ID"%string = None ->
  let max_tokens := default (utf8 "600") (environ !! "MAX_TOKENS"%string) in
  let temperature := default (utf8 "0.4") (environ !! "TEMPERATURE"%string) in
  exists e,
    run int_of_str float_of_str w environ fs
    = (Raise e, {| files := fs; trace := [] |})
    /\ exit_status (Raise e : result unit) = 1
    /\ e = match int_of_str max_tokens, float_of_str temperature with
           | None, _ => ValueError max_tokens
           | Some _, None => ValueError temperature
           | Some _, Some _ => SystemExit missing_env_message
           end.
Proof.
  intros Hmissing max_tokens temperature.
  assert (Hcheck : truthy (environ !! "OPENAI_API_KEY"%string)
                   && truthy (environ !! "TG_BOT_TOKEN"%string)
                   && truthy (environ !! "TG_CHAT_ID"%string) = false).
  { destruct Hmissing as [-> | [-> | ->]]; simpl;
      rewrite ?andb_false_r; reflexivity. }
  exists (match int_of_str max_tokens, float_of_str temperature with
          | None, _ => ValueError max_tokens
          | Some _, None => ValueError temperature
          | Some _, Some _ => SystemExit missing_env_message
          end).
  split; [|split; reflexivity].
  apply run_not_loaded. unfold load_config, int, float.
  fold max_tokens temperature.
  destruct (int_of_str max_tokens); [|reflexivity].
  destruct (float_of_str temperature); [|reflexivity].
  rewrite Hcheck. reflexivity.
Qed.

(** *** The fallback of [call_openai] *)


(** *** Persist before notify *)

(** C7.  In the trace of a run, a request to the messaging endpoint comes
    after the commit of the insert of the topic, and the row with that
    topic is then the last row of [topics] in the final store; when the
    endpoint answers that request with an error status, the run ends with
    the HTTP error and exit status 1, the row being committed all the
    same. *)
Theorem topic_committed_before_notification w environ fs r st' (i : nat) req :
  run int_of_str float_of_str w environ fs = (r, st') ->
  trace st' !! i = Some (EvPostTelegram req) ->
  exists (j : nat) path topic row,
    (j < i)%nat
    /\ trace st' !! j
       = Some (EvCommit path (InsertTopic (utcnow_isoformat w) topic))
    /\ last (topic_rows (files st') path) = Some row
    /\ content row = topic
    /\ created_utc row = utcnow_isoformat w
    /\ (exists markdown, tg_text req = msg_to_send markdown (now_strftime w) topic)
    /\ forall status body,
         telegram_post w req = Reply status body ->
         400 <= status < 600 ->
         r = Raise (HTTPError status) /\ exit_status r = 1.
Proof.
  intros Hrun Hi.
  destruct (load_config int_of_str float_of_str environ) as [cfg|e] eqn:Hcfg.
  2: { rewrite (run_not_loaded _ _ _ _ Hcfg) in Hrun. injection Hrun as <- <-.
       destruct i; discriminate. }
  rewrite (run_loaded _ _ _ _ Hcfg) in Hrun.
  apply main_run_of in Hrun.
  assert (Hrow : forall topic db,
    insert_topic (utcnow_isoformat w) topic
      (connect (DB_PATH cfg) (after_init (DB_PATH cfg) fs)) = Ok db ->
    exists row,
      last (topic_rows (commit (DB_PATH cfg) db (after_init (DB_PATH cfg) fs))
              (DB_PATH cfg)) = Some row
      /\ content row = topic /\ created_utc row = utcnow_isoformat w).
  { intros topic db Hins. destruct (transient (DB_PATH cfg)) eqn:Htr.
    - rewrite insert_topic_transient in Hins by assumption. discriminate.
    - destruct (insert_topic_Ok _ _ _ _ Hins) as (id & Hrows & _).
      eexists. rewrite commit_topic_rows_same by assumption. rewrite Hrows.
      rewrite last_snoc. split; [reflexivity|]. split; reflexivity. }
  inversion Hrun as [e He | topic e Ht Hins | topic db e Ht Hins Htg
                     | topic db answer Ht Hins Htg]; subst r st';
    cbn [files trace app] in *.
  - destruct i as [|[|[|i]]]; discriminate.
  - destruct i as [|[|i]]; discriminate.
  - destruct i as [|[|[|[|i]]]]; try discriminate.
    injection Hi as <-.
    destruct (Hrow topic db Hins) as (row & Hlast & Hcontent & Hcreated).
    exists 2%nat, (DB_PATH cfg), topic, row.
    split; [lia|]. split; [reflexivity|]. split; [exact Hlast|].
    split; [exact Hcontent|]. split; [exact Hcreated|].
    split; [eexists; reflexivity|].
    intros status body Hreply Hstatus. rewrite Hreply in Htg.
    unfold telegram_result in Htg.
    rewrite raise_for_status_error in Htg by assumption.
    injection Htg as <-. split; reflexivity.
  - destruct i as [|[|[|[|[|i]]]]]; try discriminate.
    injection Hi as <-.
    destruct (Hrow topic db Hins) as (row & Hlast & Hcontent & Hcreated).
    exists 2%nat, (DB_PATH cfg), topic, row.
    split; [lia|]. split; [reflexivity|]. split; [exact Hlast|].
    split; [exact Hcontent|]. split; [exact Hcreated|].
    split; [eexists; reflexivity|].
    intros status body Hreply Hstatus. rewrite Hreply in Htg.
    unfold telegram_result in Htg.
    rewrite raise_for_status_error in Htg by assumption. discriminate.
Qed.

(** *** The store only grows *)

Lemma no_insert_in (tr : list (event (F:=F))) path :
  Forall (fun ev => match ev with
                    | EvCommit p (InsertTopic _ _) => p <> path
                    | _ => True
                    end) tr ->
  forall created text, EvCommit path (InsertTopic created text) ∉ tr.
Proof.
  intros Hall created text Hin.
  rewrite Forall_forall in Hall. specialize (Hall _ Hin). simpl in Hall.
  congruence.
Qed.

(** C8.  A run leaves every file and table it found, with the rows each
    table had still its first rows; and to [topics], at any path, it
    either adds nothing and commits no insert there, or adds exactly one
    row at the end, the one whose insert it committed. *)
Theorem store_append_only w environ fs :
  let st' := (run int_of_str float_of_str w environ fs).2 in
  append_only fs (files st')
  /\ forall path,
       (topic_rows (files st') path = topic_rows fs path
        /\ forall created text,
             EvCommit path (InsertTopic created text) ∉ trace st')
       \/ (exists row,
             topic_rows (files st') path = topic_rows fs path ++ [row]
             /\ EvCommit path (InsertTopic (created_utc row) (content row))
                ∈ trace st').
Proof.
  cbv zeta.
  destruct (load_config int_of_str float_of_str environ) as [cfg|e] eqn:Hcfg.
  2: { rewrite (run_not_loaded _ _ _ _ Hcfg). cbn [snd files trace].
       split; [apply append_only_refl|]. intros path. left.
       split; [reflexivity|]. intros created text. apply not_elem_of_nil. }
  rewrite (run_loaded _ _ _ _ Hcfg).
  assert (Hinserted : forall topic db (tr1 tr2 : list (event (F:=F))),
    insert_topic (utcnow_isoformat w) topic
      (connect (DB_PATH cfg) (after_init (DB_PATH cfg) fs)) = Ok db ->
    Forall (fun ev => match ev with
                      | EvCommit _ (InsertTopic _ _) => False
                      | _ => True
                      end) (tr1 ++ tr2) ->
    let fs' := commit (DB_PATH cfg) db (after_init (DB_PATH cfg) fs) in
    let tr := tr1 ++ EvCommit (DB_PATH cfg)
                       (InsertTopic (utcnow_isoformat w) topic) :: tr2 in
    append_only fs fs'
    /\ forall path,
         (topic_rows fs' path = topic_rows fs path
          /\ forall created text, EvCommit path (InsertTopic created text) ∉ tr)
         \/ (exists row,
               topic_rows fs' path = topic_rows fs path ++ [row]
               /\ EvCommit path (InsertTopic (created_utc row) (content row))
                  ∈ tr)).
  { intros topic db tr1 tr2 Hins Hothers fs' tr. split.
    - eapply append_only_trans; [apply after_init_append_only|].
      eapply insert_topic_append_only; eassumption.
    - intros path. destruct (decide (path = DB_PATH cfg)) as [->|Hne].
      + right. destruct (transient (DB_PATH cfg)) eqn:Htr.
        * rewrite insert_topic_transient in Hins by assumption. discriminate.
        * destruct (insert_topic_Ok _ _ _ _ Hins) as (id & Hrows & _).
          eexists. subst fs'. rewrite commit_topic_rows_same by assumption.
          rewrite Hrows, connect_after_init by assumption.
          rewrite create_topics_rows, <- topic_rows_rows_in.
          split; [reflexivity|]. subst tr. cbn [created_utc content].
          apply elem_of_app. right. apply elem_of_cons. left. reflexivity.
      + left. subst fs'. rewrite commit_topic_rows_other by assumption.
        split; [apply after_init_topic_rows|].
        apply no_insert_in. subst tr.
        apply Forall_app in Hothers as [H1 H2].
        apply Forall_app. split; [|apply Forall_cons; split; [congruence|]].
        * eapply Forall_impl; [exact H1|]. intros [| | ? []|]; simpl; tauto.
        * eapply Forall_impl; [exact H2|]. intros [| | ? []|]; simpl; tauto. }
  destruct (main_run_main w cfg {| files := fs; trace := [] |})
    as [e He | topic e Ht Hins | topic db e Ht Hins Htg
        | topic db answer Ht Hins Htg];
    cbn [files trace app].
  - split; [apply after_init_append_only|]. intros path. left.
    split; [apply after_init_topic_rows|].
    apply no_insert_in. repeat constructor.
  - split; [apply after_init_append_only|]. intros path. left.
    split; [apply after_init_topic_rows|].
    apply no_insert_in. repeat constructor.
  - apply (Hinserted topic db
             [EvCommit (DB_PATH cfg) CreateTopics;
              EvPostOpenAI (openai_payload cfg PROMPT)]
             [EvPostTelegram _]); [assumption|]. repeat constructor.
  - apply (Hinserted topic db
             [EvCommit (DB_PATH cfg) CreateTopics;
              EvPostOpenAI (openai_payload cfg PROMPT)]
             [EvPostTelegram _; EvPrint OutSuccess]); [assumption|].
    repeat constructor.
Qed.

(** *** Creating the schema twice *)

(** C9.  On a path that names a database file, neither a private database
    nor a name that can be read as a URI, [init_db] raises nothing, a
    second call raises nothing either and leaves the file system as the
    first call left it, and the database then has exactly one table
    [topics]. *)
Theorem init_db_idempotent path st :
  transient path = false ->
  uri_name path = false ->
  (init_db path st).1 = Ok tt
  /\ (init_db path (init_db path st).2).1 = Ok tt
  /\ files (init_db path (init_db path st).2).2 = files (init_db path st).2
  /\ exists db,
       files (init_db path st).2 !! path = Some db
       /\ size (topics_tables db) = 1%nat.
Proof.
  intros Htr _. rewrite !init_db_run. cbn [fst snd files].
  split; [reflexivity|]. split; [reflexivity|].
  split; [apply after_init_idempotent|].
  exists (create_topics (connect path (files st))). split.
  - unfold after_init, commit. rewrite Htr. apply lookup_insert_eq.
  - apply topics_tables_size, create_topics_has_table.
Qed.

End Runs.

(* ===================================================================== *)
(** ** The theorems on concrete runs *)
(* ===================================================================== *)

Example load_config_credentials :
  load_config int_ascii float_decimal credentials = Ok sample_config.
Proof. vm_compute. reflexivity. Qed.

Lemma missing_credential_aborts_witness :
  (∅ : gmap string str) !! "OPENAI_API_KEY"%string = None
  /\ run int_ascii float_decimal unreachable_world ∅ ∅
     = (Raise (SystemExit missing_env_message), fresh_state).
Proof.
  assert (Hmissing : (∅ : gmap string str) !! "OPENAI_API_KEY"%string = None)
    by apply lookup_empty.
  split; [exact Hmissing|].
  destruct (missing_credential_aborts int_ascii float_decimal
              unreachable_world ∅ ∅ (or_introl Hmissing))
    as (e & Hrun & _ & He).
  rewrite Hrun, He. vm_compute. reflexivity.
Defined.

(** C5 as the specification words it fails when a credential is missing and
    [MAX_TOKENS] is no integer: [int()] raises on the line that reads it,
    before the check of the credentials is reached, and the process ends
    with that [ValueError], not with the configuration error. *)
Lemma missing_credential_value_error :
  bad_max_tokens_environ !! "OPENAI_API_KEY"%string = None
  /\ run int_ascii float_decimal unreachable_world bad_max_tokens_environ ∅
     = (Raise (ValueError (utf8 "abc")), fresh_state)
  /\ run int_ascii float_decimal unreachable_world bad_max_tokens_environ ∅
     <> (Raise (SystemExit missing_env_message), fresh_state).
Proof.
  split; [vm_compute; reflexivity|].
  split; [vm_compute; reflexivity|].
  intros H. vm_compute in H. discriminate.
Qed.



(** The body of [error_body], dumped, is what the row holds after the run,
    though the notification fails. *)
Example failing_run_row :
  (run int_ascii float_decimal failing_world credentials ∅).1
  = Raise (HTTPError 500)
  /\ content <$> topic_rows
                   (files (run int_ascii float_decimal failing_world
                             credentials ∅).2)
                   (utf8 "topics.db")
     = [[123; 10; 32; 32; 34; 101; 114; 114; 111; 114; 34; 58; 32; 123; 10;
         32; 32; 32; 32; 34; 109; 101; 115; 115; 97; 103; 101; 34; 58; 32;
         34; 113; 117; 111; 116; 97; 34; 10; 32; 32; 125; 10; 125]].
Proof. vm_compute. split; reflexivity. Qed.

Lemma topic_committed_before_notification_witness :
  exists req,
    trace (run int_ascii float_decimal failing_world credentials ∅).2 !! 3%nat
    = Some (EvPostTelegram req)
    /\ telegram_post failing_world req = Reply 500 None
    /\ (run int_ascii float_decimal failing_world credentials ∅).1
       = Raise (HTTPError 500)
    /\ exit_status (run int_ascii float_decimal failing_world credentials ∅).1 = 1.
Proof.
  set (out := run int_ascii float_decimal failing_world credentials ∅).
  assert (Hreq : exists req, trace out.2 !! 3%nat = Some (EvPostTelegram req))
    by (vm_compute; eexists; reflexivity).
  destruct Hreq as [req Hreq]. exists req.
  split; [exact Hreq|]. split; [reflexivity|].
  destruct (topic_committed_before_notification int_ascii float_decimal
              failing_world credentials ∅ out.1 out.2 3 req
              (surjective_pairing out) Hreq)
    as (j & path & topic & row & _ & _ & _ & _ & _ & _ & Herr).
  apply (Herr 500 None); [reflexivity | lia].
Defined.

Lemma init_db_idempotent_witness :
  transient (utf8 "topics.db") = false
  /\ uri_name (utf8 "topics.db") = false
  /\ (init_db (utf8 "topics.db") fresh_state).1 = Ok tt
  /\ (init_db (utf8 "topics.db") (init_db (utf8 "topics.db") fresh_state).2).1
     = Ok tt
  /\ files (init_db (utf8 "topics.db")
              (init_db (utf8 "topics.db") fresh_state).2).2
     = files (init_db (utf8 "topics.db") fresh_state).2
  /\ exists db,
       files (init_db (utf8 "topics.db") fresh_state).2 !! utf8 "topics.db"
       = Some db
       /\ size (topics_tables db) = 1%nat.
Proof.
  assert (Hfile : transient (utf8 "topics.db") = false) by reflexivity.
  assert (Hname : uri_name (utf8 "topics.db") = false) by reflexivity.
  split; [exact Hfile|]. split; [exact Hname|].
  exact (init_db_idempotent (utf8 "topics.db") fresh_state Hfile Hname).
Defined.

(** A private database is gone between the two connections: with
    [DB_PATH] set to [:memory:], the insert finds no table. *)
Example memory_path_insert_fails :
  (run int_ascii float_decimal failing_world
     (<["DB_PATH"%string := utf8 ":memory:"]> credentials) ∅).1
  = Raise (OperationalError NoSuchTable).
Proof. vm_compute. reflexivity. Qed.

(* ===================================================================== *)
(** ** More on the length guard and the escaping *)
(* ===================================================================== *)

Section LengthGuardMore.

Implicit Types (text : str) (limit : Z).

(** [rfind] of one character is -1 or an index of the string. *)
Lemma rfind_single_range (c : codepoint) (s : str) :
  rfind [c] s = -1
  \/ exists j : nat, rfind [c] s = Z.of_nat j /\ (j < length s)%nat.
Proof.
  unfold rfind.
  destruct (rfind_from_single c s 0 (-1)) as [[_ Hr] | (j & Hr & Hj & _)].
  - left. exact Hr.
  - right. exists j. split; [lia|]. eapply lookup_lt_Some. exact Hj.
Qed.

(** X1.  With a limit above 200, what is kept of a text longer than the
    limit is a prefix of it that is not empty and has at most [limit - 200]
    characters: the result is never the marker alone. *)
Theorem ensure_telegram_length_keeps_prefix text limit :
  200 < limit -> limit < len text ->
  exists n : nat,
    (0 < n)%nat /\ Z.of_nat n <= limit - 200
    /\ ensure_telegram_length text limit = take n text ++ truncation_marker
    /\ len (ensure_telegram_length text limit) = Z.of_nat n + 44.
Proof.
  intros Hlim Hlong. rewrite ensure_telegram_length_long by assumption.
  cbv zeta. rewrite (slice_to_nonneg text (limit - 200)) by lia.
  set (m := Z.to_nat (limit - 200)).
  assert (Hm : (m < length text)%nat) by (unfold len in Hlong; lia).
  assert (Hlen : forall n : nat, (n <= m)%nat ->
            len (take n text ++ truncation_marker) = Z.of_nat n + 44).
  { intros n Hn. rewrite len_app. change (len truncation_marker) with 44.
    unfold len. rewrite length_take. lia. }
  destruct (rfind_single_range newline (take m text)) as [Hr | (j & Hr & Hj)];
    rewrite Hr.
  - exists m. split; [lia|]. split; [lia|]. split; [reflexivity|].
    apply Hlen. lia.
  - rewrite length_take in Hj.
    destruct (Z.ltb_spec 0 (Z.of_nat j)) as [Hpos|Hzero].
    + exists j. split; [lia|]. split; [lia|].
      rewrite slice_to_nonneg by lia. rewrite Nat2Z.id, take_take.
      replace (j `min` m)%nat with j by lia.
      split; [reflexivity|]. apply Hlen. lia.
    + exists m. split; [lia|]. split; [lia|]. split; [reflexivity|].
      apply Hlen. lia.
Qed.

Lemma ensure_telegram_length_keeps_prefix_witness :
  200 < default_limit /\ default_limit < len two_line_text
  /\ exists n : nat,
       (0 < n)%nat /\ Z.of_nat n <= default_limit - 200
       /\ ensure_telegram_length two_line_text default_limit
          = take n two_line_text ++ truncation_marker
       /\ len (ensure_telegram_length two_line_text default_limit)
          = Z.of_nat n + 44.
Proof.
  assert (Hlim : 200 < default_limit) by (vm_compute; reflexivity).
  assert (Hlong : default_limit < len two_line_text) by (vm_compute; reflexivity).
  split; [exact Hlim|]. split; [exact Hlong|].
  exact (ensure_telegram_length_keeps_prefix two_line_text default_limit Hlim Hlong).
Defined.

(** X2.  From a limit of 200 on, shortening is idempotent: the result fits
    the limit, so a second pass returns it as it is. *)
Theorem ensure_telegram_length_idempotent text limit :
  200 <= limit ->
  ensure_telegram_length (ensure_telegram_length text limit) limit
  = ensure_telegram_length text limit.
Proof.
  intros Hlim. apply ensure_telegram_length_within.
  destruct (Z.le_gt_cases (len text) limit) as [Hle|Hgt].
  - rewrite ensure_telegram_length_within by assumption. assumption.
  - apply ensure_telegram_length_fits; [assumption | lia].
Qed.

Lemma ensure_telegram_length_idempotent_witness :
  200 <= default_limit
  /\ ensure_telegram_length (ensure_telegram_length long_text default_limit)
       default_limit
     = ensure_telegram_length long_text default_limit.
Proof.
  assert (Hlim : 200 <= default_limit) by (vm_compute; discriminate).
  split; [exact Hlim|].
  exact (ensure_telegram_length_idempotent long_text default_limit Hlim).
Defined.

Lemma rfind_single_not_in (c : codepoint) (s : str) : c ∉ s -> rfind [c] s = -1.
Proof.
  intros Hnot. apply rfind_single_absent. intros j Hj.
  apply Hnot. eapply list_elem_of_lookup_2. exact Hj.
Qed.

(** X3.  Below a limit of 200 the bound [limit - 200] is negative and the
    slice drops the last [200 - limit] characters instead: a text without
    newline comes back with [len text + limit - 156] characters, more than
    the limit as soon as the text has more than 156. *)
Theorem ensure_telegram_length_below_200 text limit :
  limit < 200 -> limit < len text -> 200 - limit <= len text ->
  newline ∉ text ->
  len (ensure_telegram_length text limit) = len text + limit - 156.
Proof.
  intros Hlim Hlong Hroom Hnl.
  rewrite ensure_telegram_length_long by assumption. cbv zeta.
  assert (Hcut : slice_to text (limit - 200)
                 = take (Z.to_nat (len text + (limit - 200))) text).
  { unfold slice_to. destruct (Z.ltb_spec (limit - 200) 0); [reflexivity | lia]. }
  rewrite Hcut.
  rewrite rfind_single_not_in.
  - change (0 <? -1) with false. cbv iota. rewrite len_app.
    change (len truncation_marker) with 44.
    unfold len in *. rewrite length_take. lia.
  - intros Hin. apply elem_of_take in Hin as (i & Hi & _).
    apply Hnl. eapply list_elem_of_lookup_2. exact Hi.
Qed.

Lemma ensure_telegram_length_below_200_witness :
  100 < 200 /\ 100 < len (repeat 97 1000) /\ 200 - 100 <= len (repeat 97 1000)
  /\ (newline ∉ repeat 97 1000)
  /\ len (ensure_telegram_length (repeat 97 1000) 100) = 944.
Proof.
  assert (H1 : 100 < 200) by lia.
  assert (H2 : 100 < len (repeat 97 1000)) by (vm_compute; reflexivity).
  assert (H3 : 200 - 100 <= len (repeat 97 1000)) by (vm_compute; discriminate).
  assert (H4 : newline ∉ repeat 97 1000).
  { intros Hin. apply list_elem_of_In, repeat_spec in Hin. discriminate. }
  split; [exact H1|]. split; [exact H2|]. split; [exact H3|]. split; [exact H4|].
  rewrite (ensure_telegram_length_below_200 (repeat 97 1000) 100 H1 H2 H3 H4).
  vm_compute. reflexivity.
Defined.

End LengthGuardMore.

Section MessageMore.

Implicit Types (now topic msg : str).

(** X4.  The header ends with an empty line, so in a message longer than
    the limit whose topic has no newline within the cut, the last newline
    of the cut is the one that ends the header line: the guard backs up to
    it and nothing of the topic is left in the message. *)
Theorem ensure_telegram_length_drops_one_line_topic now topic :
  len now <= 3000 ->
  default_limit < len (header now ++ topic) ->
  newline ∉ take (3800 - length (header now)) topic ->
  ensure_telegram_length (header now ++ topic) default_limit
  = header_prefix ++ now ++ [newline] ++ truncation_marker.
Proof.
  intros Hnow Hlong Hnl.
  rewrite ensure_telegram_length_long by assumption. cbv zeta.
  assert (Hhead : (length (header now) <= 3800)%nat).
  { pose proof (header_len now) as H. unfold len in *. lia. }
  assert (Hcut : slice_to (header now ++ topic) (default_limit - 200)
                 = (header_prefix ++ now ++ [newline])
                   ++ newline :: take (3800 - length (header now)) topic).
  { rewrite slice_to_nonneg by (unfold default_limit; lia).
    change (Z.to_nat (default_limit - 200)) with 3800%nat.
    rewrite take_app, (take_ge (header now)) by lia.
    unfold header. rewrite <- !app_assoc. reflexivity. }
  rewrite Hcut.
  set (line := header_prefix ++ now ++ [newline]).
  set (rest := take (3800 - length (header now)) topic) in *.
  assert (Hr : rfind [newline] (line ++ newline :: rest)
               = Z.of_nat (length line)).
  { apply rfind_single_last.
    - rewrite lookup_app_r by lia. rewrite Nat.sub_diag. reflexivity.
    - intros k Hk Hin. rewrite lookup_app_r in Hin by lia.
      destruct (k - length line)%nat as [|k'] eqn:Ek; [lia|].
      simpl in Hin. apply Hnl. eapply list_elem_of_lookup_2. exact Hin. }
  rewrite Hr.
  assert (Hpos : (0 < length line)%nat).
  { subst line. rewrite !length_app. simpl. lia. }
  destruct (Z.ltb_spec 0 (Z.of_nat (length line))) as [_|Hle]; [|lia].
  rewrite slice_to_nonneg by lia. rewrite Nat2Z.id.
  rewrite take_app_length. subst line. rewrite <- !app_assoc. reflexivity.
Qed.

Lemma ensure_telegram_length_drops_one_line_topic_witness :
  len sample_now <= 3000
  /\ default_limit < len (header sample_now ++ one_line_topic)
  /\ (newline ∉ take (3800 - length (header sample_now)) one_line_topic)
  /\ ensure_telegram_length (header sample_now ++ one_line_topic) default_limit
     = header_prefix ++ sample_now ++ [newline] ++ truncation_marker.
Proof.
  assert (H1 : len sample_now <= 3000) by (vm_compute; discriminate).
  assert (H2 : default_limit < len (header sample_now ++ one_line_topic))
    by (vm_compute; reflexivity).
  assert (H3 : newline ∉ take (3800 - length (header sample_now)) one_line_topic).
  { intros Hin. apply elem_of_take in Hin as (i & Hi & _).
    apply lookup_repeat_Some in Hi. discriminate. }
  split; [exact H1|]. split; [exact H2|]. split; [exact H3|].
  exact (ensure_telegram_length_drops_one_line_topic sample_now one_line_topic
           H1 H2 H3).
Defined.

Lemma count_meta_range msg : 0 <= count_meta msg <= len msg.
Proof.
  induction msg as [|c msg' IH]; [cbv; split; discriminate|].
  cbn [count_meta]. unfold len in *. cbn [length].
  destruct (is_meta c); lia.
Qed.

Lemma flat_map_esc_char_len msg :
  len (flat_map esc_char msg) = len msg + count_meta msg.
Proof.
  induction msg as [|c msg' IH]; [reflexivity|].
  cbn [flat_map count_meta]. rewrite len_app, IH.
  unfold esc_char, len. cbn [length].
  destruct (is_meta c); cbn [length]; lia.
Qed.

(** X5.  The escaping lengthens a message by exactly the number of its
    metacharacters, hence at most doubles it, and leaves a message without
    metacharacters as it is. *)
Theorem esc_length msg :
  len (esc msg) = len msg + count_meta msg
  /\ len (esc msg) <= 2 * len msg
  /\ (count_meta msg = 0 -> esc msg = msg).
Proof.
  rewrite esc_flat_map. split; [apply flat_map_esc_char_len|]. split.
  - rewrite flat_map_esc_char_len. pose proof (count_meta_range msg). lia.
  - induction msg as [|c msg' IH]; [reflexivity|].
    cbn [count_meta flat_map]. intros Hcount.
    pose proof (count_meta_range msg') as Hrange.
    unfold esc_char. destruct (is_meta c); [lia|].
    cbn [app]. f_equal. apply IH. lia.
Qed.

Lemma ensure_telegram_length_default_fits msg :
  len (ensure_telegram_length msg default_limit) <= default_limit.
Proof.
  destruct (Z.le_gt_cases (len msg) default_limit) as [Hle|Hgt].
  - rewrite ensure_telegram_length_within by assumption. assumption.
  - apply ensure_telegram_length_fits; [unfold default_limit; lia | lia].
Qed.

(** X6.  Whatever the time and the topic, the text handed to
    [send_telegram] has at most 4000 characters when Markdown is off and at
    most 8000 when it is on. *)
Theorem msg_to_send_bounds now topic :
  len (msg_to_send false now topic) <= 4000
  /\ len (msg_to_send true now topic) <= 8000.
Proof.
  unfold msg_to_send.
  pose proof (ensure_telegram_length_default_fits (header now ++ topic)) as Hfit.
  unfold default_limit in Hfit. split; [exact Hfit|].
  rewrite esc_flat_map, flat_map_esc_char_len.
  pose proof (count_meta_range
                (ensure_telegram_length (header now ++ topic) default_limit)).
  unfold default_limit in *. lia.
Qed.

End MessageMore.

(* ===================================================================== *)
(** ** More on [call_openai] *)
(* ===================================================================== *)

Section Strip.

Implicit Types (s : str) (c : codepoint).

(** A string is trimmed when neither its first nor its last character is
    whitespace. *)
Lemma lstrip_head s c : head (lstrip s) = Some c -> is_space c = false.
Proof.
  induction s as [|b s' IH]; [discriminate|].
  cbn [lstrip]. destruct (is_space b) eqn:Hb; [exact IH|].
  intros H. injection H as <-. exact Hb.
Qed.

Lemma lstrip_fixed s :
  (forall c, head s = Some c -> is_space c = false) -> lstrip s = s.
Proof.
  destruct s as [|b s']; [reflexivity|]. intros H.
  cbn [lstrip]. rewrite (H b eq_refl). reflexivity.
Qed.

Lemma lstrip_suffix s : lstrip s `suffix_of` s.
Proof.
  induction s as [|b s' IH]; [reflexivity|].
  cbn [lstrip]. destruct (is_space b); [|reflexivity].
  apply suffix_cons_r. exact IH.
Qed.

Lemma lstrip_last s c :
  last (lstrip s) = Some c -> last s = Some c.
Proof.
  intros H. destruct (lstrip_suffix s) as [k Hk].
  rewrite Hk at 1. rewrite last_app, H. reflexivity.
Qed.

Lemma rev_is_reverse s : rev s = reverse s.
Proof. apply rev_alt. Qed.

Lemma rstrip_last s c : last (rstrip s) = Some c -> is_space c = false.
Proof.
  unfold rstrip. rewrite rev_is_reverse, last_reverse. apply lstrip_head.
Qed.

Lemma rstrip_fixed s :
  (forall c, last s = Some c -> is_space c = false) -> rstrip s = s.
Proof.
  intros H. unfold rstrip. rewrite lstrip_fixed.
  - apply rev_involutive.
  - intros c. rewrite rev_is_reverse, head_reverse. apply H.
Qed.

Lemma strip_head s c : head (strip s) = Some c -> is_space c = false.
Proof. apply lstrip_head. Qed.

Lemma strip_last s c : last (strip s) = Some c -> is_space c = false.
Proof.
  unfold strip. intros H. apply lstrip_last in H.
  eapply rstrip_last. exact H.
Qed.

Lemma strip_strip s : strip (strip s) = strip s.
Proof.
  unfold strip at 1. rewrite rstrip_fixed by apply strip_last.
  apply lstrip_fixed, strip_head.
Qed.

End Strip.

Section CallOpenAI.

Context {F : Type}.

Implicit Types (w : world (F:=F)) (cfg : config (F:=F)) (st : state (F:=F)).

Lemma openai_content_Ok reply topic :
  openai_content reply = Ok topic -> exists s, topic = strip s.
Proof.
  unfold openai_content. intros H.
  destruct reply as [|status body]; [discriminate|].
  destruct (raise_for_status status); [|discriminate].
  destruct (response_json body) as [data|]; [|discriminate].
  destruct (extract_content data) as [v|]; [|discriminate].
  destruct v; try discriminate. injection H as <-. eauto.
Qed.

(** X7.  When the endpoint answers without an error status and the body
    holds a string at [choices[0].message.content], [call_openai] returns
    that string without its surrounding whitespace. *)
Theorem call_openai_content w cfg prompt st status data s :
  openai_post w (openai_payload cfg prompt) = Reply status (Some data) ->
  ~ (400 <= status < 600) ->
  content_at_path data = Some (JString s) ->
  (call_openai w cfg prompt st).1 = Ok (strip s).
Proof.
  intros Hreply Hstatus Hpath. rewrite call_openai_run. cbn [fst].
  rewrite Hreply. unfold openai_content.
  rewrite raise_for_status_ok by assumption. cbn [response_json].
  rewrite (extract_content_found _ _ Hpath). reflexivity.
Qed.

(** X8.  Whatever the reply, a topic [call_openai] returns is trimmed: it
    neither starts nor ends with a whitespace character, and [strip]
    leaves it as it is. *)
Theorem call_openai_trimmed w cfg prompt st topic :
  (call_openai w cfg prompt st).1 = Ok topic ->
  strip topic = topic
  /\ (forall c, head topic = Some c -> is_space c = false)
  /\ (forall c, last topic = Some c -> is_space c = false).
Proof.
  rewrite call_openai_run. cbn [fst]. intros H.
  destruct (openai_content_Ok _ _ H) as [s ->].
  split; [apply strip_strip|]. split; intros c.
  - apply strip_head.
  - apply strip_last.
Qed.

(** X9.  The [strip] of [call_openai] is outside its [try]: when the body
    has the field path but the value there is not a string ([null], a
    number, a list, an object), the call raises [AttributeError] instead
    of falling back to the dump. *)
Theorem call_openai_content_not_str w cfg prompt st status data v :
  openai_post w (openai_payload cfg prompt) = Reply status (Some data) ->
  ~ (400 <= status < 600) ->
  content_at_path data = Some v ->
  (forall s, v <> JString s) ->
  (call_openai w cfg prompt st).1 = Raise AttributeError.
Proof.
  intros Hreply Hstatus Hpath Hnostr. rewrite call_openai_run. cbn [fst].
  rewrite Hreply. unfold openai_content.
  rewrite raise_for_status_ok by assumption. cbn [response_json].
  rewrite (extract_content_found _ _ Hpath).
  destruct v; try reflexivity. exfalso. eapply Hnostr. reflexivity.
Qed.

End CallOpenAI.

Lemma call_openai_content_witness :
  openai_post (world_replying (Reply 200 (Some (topic_body (JString padded_topic))))
                 NoReply)
    (openai_payload sample_config PROMPT)
  = Reply 200 (Some (topic_body (JString padded_topic)))
  /\ ~ (400 <= 200 < 600)
  /\ content_at_path (topic_body (JString padded_topic)) = Some (JString padded_topic)
  /\ (call_openai
        (world_replying (Reply 200 (Some (topic_body (JString padded_topic))))
           NoReply)
        sample_config PROMPT fresh_state).1
     = Ok (utf8 "Téma: X").
Proof.
  assert (Hstatus : ~ (400 <= 200 < 600)) by lia.
  assert (Hpath : content_at_path (topic_body (JString padded_topic))
                  = Some (JString padded_topic)) by (vm_compute; reflexivity).
  split; [reflexivity|]. split; [exact Hstatus|]. split; [exact Hpath|].
  rewrite (call_openai_content
             (world_replying (Reply 200 (Some (topic_body (JString padded_topic))))
                NoReply)
             sample_config PROMPT fresh_state 200 _ padded_topic
             eq_refl Hstatus Hpath).
  vm_compute. reflexivity.
Defined.

Lemma call_openai_trimmed_witness :
  (call_openai
     (world_replying (Reply 200 (Some (topic_body (JString padded_topic))))
        NoReply)
     sample_config PROMPT fresh_state).1
  = Ok (utf8 "Téma: X")
  /\ strip (utf8 "Téma: X") = utf8 "Téma: X".
Proof.
  assert (Hcall : (call_openai
                     (world_replying
                        (Reply 200 (Some (topic_body (JString padded_topic))))
                        NoReply)
                     sample_config PROMPT fresh_state).1
                  = Ok (utf8 "Téma: X")) by (vm_compute; reflexivity).
  split; [exact Hcall|].
  exact (proj1 (call_openai_trimmed _ _ _ _ _ Hcall)).
Defined.

Lemma call_openai_content_not_str_witness :
  openai_post (world_replying (Reply 200 (Some (topic_body JNull))) NoReply)
    (openai_payload sample_config PROMPT)
  = Reply 200 (Some (topic_body JNull))
  /\ ~ (400 <= 200 < 600)
  /\ content_at_path (topic_body JNull) = Some JNull
  /\ (forall s, JNull <> JString s)
  /\ (call_openai (world_replying (Reply 200 (Some (topic_body JNull))) NoReply)
        sample_config PROMPT fresh_state).1
     = Raise AttributeError.
Proof.
  assert (Hstatus : ~ (400 <= 200 < 600)) by lia.
  assert (Hpath : content_at_path (topic_body JNull) = Some JNull)
    by (vm_compute; reflexivity).
  assert (Hnostr : forall s, JNull <> JString s) by (intros s; discriminate).
  split; [reflexivity|]. split; [exact Hstatus|]. split; [exact Hpath|].
  split; [exact Hnostr|].
  exact (call_openai_content_not_str
           (world_replying (Reply 200 (Some (topic_body JNull))) NoReply)
           sample_config PROMPT fresh_state 200 _ JNull
           eq_refl Hstatus Hpath Hnostr).
Defined.

(* ===================================================================== *)
(** ** More on the runs of the process *)
(* ===================================================================== *)

Section RunsMore.

Context {F : Type}.
Variable int_of_str : str -> option Z.
Variable float_of_str : str -> option F.

Implicit Types (w : world (F:=F)) (cfg : config (F:=F)) (st : state (F:=F)).

Ltac not_in_trace H :=
  repeat (apply elem_of_cons in H as [H|H]; [discriminate|]);
  apply elem_of_nil in H; exact H.


(** X11.  The run returns normally exactly when it has printed the final
    message, and its trace is then the five steps in their order: the
    table, one request for the topic, the insert, one request to send it,
    the message. *)
Theorem run_success_trace w environ fs :
  ((run int_of_str float_of_str w environ fs).1 = Ok tt
   <-> EvPrint OutSuccess ∈ trace (run int_of_str float_of_str w environ fs).2)
  /\ ((run int_of_str float_of_str w environ fs).1 = Ok tt ->
      exists cfg topic,
        load_config int_of_str float_of_str environ = Ok cfg
        /\ trace (run int_of_str float_of_str w environ fs).2
           = [EvCommit (DB_PATH cfg) CreateTopics;
              EvPostOpenAI (openai_payload cfg PROMPT);
              EvCommit (DB_PATH cfg) (InsertTopic (utcnow_isoformat w) topic);
              EvPostTelegram
                (telegram_payload cfg
                   (msg_to_send (SEND_AS_MARKDOWN cfg) (now_strftime w) topic));
              EvPrint OutSuccess]).
Proof.
  destruct (load_config int_of_str float_of_str environ) as [cfg|e] eqn:Hcfg.
  2: { rewrite (run_not_loaded _ _ _ _ _ _ Hcfg). cbn [fst snd trace].
       split; [split|]; try discriminate.
       intros Hin. apply elem_of_nil in Hin. destruct Hin. }
  rewrite (run_loaded _ _ _ _ _ _ Hcfg).
  destruct (main_run_main w cfg {| files := fs; trace := [] |})
    as [e He | topic e Ht Hins | topic db e Ht Hins Htg
        | topic db answer Ht Hins Htg];
    cbn [files trace app].
  - split; [split|]; try discriminate. intros Hin. exfalso. not_in_trace Hin.
  - split; [split|]; try discriminate. intros Hin. exfalso. not_in_trace Hin.
  - split; [split|]; try discriminate. intros Hin. exfalso. not_in_trace Hin.
  - split; [split|].
    + intros _. do 4 (apply elem_of_cons; right).
      apply elem_of_cons. left. reflexivity.
    + reflexivity.
    + intros _. exists cfg, topic. split; reflexivity.
Qed.

(** X12.  Nothing is retried: a run sends at most one request to the
    generation endpoint, and a request to the messaging endpoint only
    after one to the generation endpoint, at most one as well. *)
Theorem run_requests_once w environ fs :
  (count_events is_post_openai
     (trace (run int_of_str float_of_str w environ fs).2) <= 1)%nat
  /\ (count_events is_post_telegram
        (trace (run int_of_str float_of_str w environ fs).2)
      <= count_events is_post_openai
           (trace (run int_of_str float_of_str w environ fs).2))%nat.
Proof.
  destruct (load_config int_of_str float_of_str environ) as [cfg|e] eqn:Hcfg.
  2: { rewrite (run_not_loaded _ _ _ _ _ _ Hcfg). cbn. lia. }
  rewrite (run_loaded _ _ _ _ _ _ Hcfg).
  destruct (main_run_main w cfg {| files := fs; trace := [] |})
    as [e He | topic e Ht Hins | topic db e Ht Hins Htg
        | topic db answer Ht Hins Htg];
    cbn; lia.
Qed.

(** X13.  [send_telegram] returns [r.json()]: when the messaging endpoint
    answers the request without an error status but with a body that is
    not JSON, the run ends with the decoding error and exit status 1, and
    without the final message, though the request was sent. *)
Theorem notification_reply_not_json w environ fs r st' (i : nat) req status :
  run int_of_str float_of_str w environ fs = (r, st') ->
  trace st' !! i = Some (EvPostTelegram req) ->
  telegram_post w req = Reply status None ->
  ~ (400 <= status < 600) ->
  r = Raise JSONDecodeError /\ exit_status r = 1
  /\ EvPrint OutSuccess ∉ trace st'.
Proof.
  intros Hrun Hi Hreply Hstatus.
  destruct (load_config int_of_str float_of_str environ) as [cfg|e] eqn:Hcfg.
  2: { rewrite (run_not_loaded _ _ _ _ _ _ Hcfg) in Hrun.
       injection Hrun as <- <-. destruct i; discriminate. }
  rewrite (run_loaded _ _ _ _ _ _ Hcfg) in Hrun.
  apply main_run_of in Hrun.
  inversion Hrun as [e He | topic e Ht Hins | topic db e Ht Hins Htg
                     | topic db answer Ht Hins Htg]; subst r st';
    cbn [files trace app] in *.
  - destruct i as [|[|[|i]]]; discriminate.
  - destruct i as [|[|i]]; discriminate.
  - destruct i as [|[|[|[|i]]]]; try discriminate.
    injection Hi as <-. rewrite Hreply in Htg. unfold telegram_result in Htg.
    rewrite raise_for_status_ok in Htg by assumption.
    cbn [response_json] in Htg. injection Htg as <-.
    split; [reflexivity|]. split; [reflexivity|].
    intros Hin. not_in_trace Hin.
  - destruct i as [|[|[|[|[|i]]]]]; try discriminate.
    injection Hi as <-. rewrite Hreply in Htg. unfold telegram_result in Htg.
    rewrite raise_for_status_ok in Htg by assumption. discriminate.
Qed.

(** X14.  A credential set to the empty string counts as missing: when the
    numeric settings are accepted, the process ends with the configuration
    error and has done nothing. *)
Theorem empty_credential_aborts w environ fs :
  environ !! "OPENAI_API_KEY"%string = Some []
  \/ environ !! "TG_BOT_TOKEN"%string = Some []
  \/ environ !! "TG_CHAT_ID"%string = Some [] ->
  is_Some (int_of_str (default (utf8 "600") (environ !! "MAX_TOKENS"%string))) ->
  is_Some (float_of_str (default (utf8 "0.4") (environ !! "TEMPERATURE"%string))) ->
  run int_of_str float_of_str w environ fs
  = (Raise (SystemExit missing_env_message), {| files := fs; trace := [] |}).
Proof.
  intros Hempty [n Hn] [x Hx].
  assert (Hcheck : truthy (environ !! "OPENAI_API_KEY"%string)
                   && truthy (environ !! "TG_BOT_TOKEN"%string)
                   && truthy (environ !! "TG_CHAT_ID"%string) = false).
  { destruct Hempty as [-> | [-> | ->]]; simpl;
      rewrite ?andb_false_r; reflexivity. }
  apply run_not_loaded. unfold load_config, int, float.
  rewrite Hn, Hx, Hcheck. reflexivity.
Qed.

(** What [load_config] puts in the fields the run uses. *)
Lemma load_config_fields environ cfg :
  load_config int_of_str float_of_str environ = Ok cfg ->
  DB_PATH cfg = default (utf8 "topics.db") (environ !! "DB_PATH"%string)
  /\ SEND_AS_MARKDOWN cfg
     = bool_decide (default (utf8 "1") (environ !! "SEND_AS_MARKDOWN"%string)
                    = utf8 "1").
Proof.
  unfold load_config. intros H.
  destruct (int _); [|discriminate]. destruct (float _); [|discriminate].
  destruct (negb _); [discriminate|]. injection H as <-. split; reflexivity.
Qed.

(** X15.  Markdown is on when [SEND_AS_MARKDOWN] is absent or is exactly
    the string [1], and off for every other value.  The request to the
    messaging endpoint then carries [parse_mode] Markdown and the escaped
    text; otherwise it carries no [parse_mode] and the text as the length
    guard left it. *)
Theorem notification_markdown w environ fs r st' (i : nat) req :
  run int_of_str float_of_str w environ fs = (r, st') ->
  trace st' !! i = Some (EvPostTelegram req) ->
  exists topic,
    let msg := ensure_telegram_length (header (now_strftime w) ++ topic)
                 default_limit in
    ((environ !! "SEND_AS_MARKDOWN"%string = None
      \/ environ !! "SEND_AS_MARKDOWN"%string = Some (utf8 "1"))
     /\ tg_parse_mode req = Some (utf8 "Markdown")
     /\ tg_text req = esc msg)
    \/ ((exists v, environ !! "SEND_AS_MARKDOWN"%string = Some v /\ v <> utf8 "1")
        /\ tg_parse_mode req = None
        /\ tg_text req = msg).
Proof.
  intros Hrun Hi.
  destruct (load_config int_of_str float_of_str environ) as [cfg|e] eqn:Hcfg.
  2: { rewrite (run_not_loaded _ _ _ _ _ _ Hcfg) in Hrun.
       injection Hrun as <- <-. destruct i; discriminate. }
  rewrite (run_loaded _ _ _ _ _ _ Hcfg) in Hrun.
  apply main_run_of in Hrun.
  destruct (load_config_fields _ _ Hcfg) as [_ Hflag].
  assert (Hreq : forall topic,
    req = telegram_payload cfg
            (msg_to_send (SEND_AS_MARKDOWN cfg) (now_strftime w) topic) ->
    let msg := ensure_telegram_length (header (now_strftime w) ++ topic)
                 default_limit in
    ((environ !! "SEND_AS_MARKDOWN"%string = None
      \/ environ !! "SEND_AS_MARKDOWN"%string = Some (utf8 "1"))
     /\ tg_parse_mode req = Some (utf8 "Markdown")
     /\ tg_text req = esc msg)
    \/ ((exists v, environ !! "SEND_AS_MARKDOWN"%string = Some v /\ v <> utf8 "1")
        /\ tg_parse_mode req = None
        /\ tg_text req = msg)).
  { intros topic -> msg. unfold telegram_payload, msg_to_send.
    cbn [tg_parse_mode tg_text]. fold msg. rewrite Hflag. clear Hflag.
    case_bool_decide as Hone.
    - left. split; [|split; reflexivity].
      destruct (environ !! "SEND_AS_MARKDOWN"%string) as [v|];
        [right; f_equal; exact Hone | left; reflexivity].
    - right. split; [|split; reflexivity].
      destruct (environ !! "SEND_AS_MARKDOWN"%string) as [v|];
        [exists v; split; [reflexivity | exact Hone]
        | exfalso; apply Hone; reflexivity]. }
  inversion Hrun as [e He | topic e Ht Hins | topic db e Ht Hins Htg
                     | topic db answer Ht Hins Htg]; subst r st';
    cbn [files trace app] in *.
  - destruct i as [|[|[|i]]]; discriminate.
  - destruct i as [|[|i]]; discriminate.
  - destruct i as [|[|[|[|i]]]]; try discriminate.
    injection Hi as Hi. exists topic. apply Hreq. symmetry. exact Hi.
  - destruct i as [|[|[|[|[|i]]]]]; try discriminate.
    injection Hi as Hi. exists topic. apply Hreq. symmetry. exact Hi.
Qed.

End RunsMore.

(* ===================================================================== *)
(** ** More on the store *)
(* ===================================================================== *)

Section StoreMore.

Context {F : Type}.
Variable int_of_str : str -> option Z.
Variable float_of_str : str -> option F.

Implicit Types (w : world (F:=F)) (cfg : config (F:=F)) (st : state (F:=F)).

Lemma save_topic_run w text path st :
  save_topic w text path st
  = match insert_topic (utcnow_isoformat w) text (connect path (files st)) with
    | Ok db =>
        (Ok tt,
         {| files := commit path db (files st);
            trace := trace st
                     ++ [EvCommit path (InsertTopic (utcnow_isoformat w) text)] |})
    | Raise e => (Raise e, st)
    end.
Proof.
  unfold save_topic, bind, get_files, lift, put_files, emit.
  destruct (insert_topic _ _ _); reflexivity.
Qed.

Lemma largest_row_id_ge (t : table) r :
  r ∈ rows t -> row_id r <= largest_row_id t.
Proof.
  unfold largest_row_id. induction (rows t) as [|r' l IH]; intros Hin.
  - apply elem_of_nil in Hin. destruct Hin.
  - cbn [foldr]. apply elem_of_cons in Hin as [->|Hin]; [lia|].
    specialize (IH Hin). lia.
Qed.

Lemma largest_row_id_nonneg (t : table) : 0 <= largest_row_id t.
Proof.
  unfold largest_row_id. induction (rows t) as [|r' l IH]; cbn [foldr]; lia.
Qed.


(** X17.  A row [save_topic] has stored is the last row of [topics], holds
    the text and the time of the clock, and has a rowid between 1 and the
    largest rowid that is above the rowid of every row the table had. *)
Theorem save_topic_appends w text path st st' :
  save_topic w text path st = (Ok tt, st') ->
  exists row,
    topic_rows (files st') path = topic_rows (files st) path ++ [row]
    /\ content row = text
    /\ created_utc row = utcnow_isoformat w
    /\ 0 < row_id row <= max_rowid
    /\ forall r, r ∈ topic_rows (files st) path -> row_id r < row_id row.
Proof.
  rewrite save_topic_run. intros Hsave.
  destruct (insert_topic (utcnow_isoformat w) text (connect path (files st)))
    as [db|e] eqn:Hins; [|discriminate].
  injection Hsave as <-. cbn [files].
  destruct (transient path) eqn:Htr.
  { rewrite insert_topic_transient in Hins by assumption. discriminate. }
  rewrite connect_persistent in Hins by assumption.
  rewrite commit_topic_rows_same by assumption.
  rewrite topic_rows_rows_in. unfold rows_in.
  destruct (insert_topic_inv _ _ _ _ Hins) as (t & Ht & _ & _ & Hroom & ->).
  rewrite Ht, lookup_insert_eq. cbn [rows].
  eexists. split; [reflexivity|]. cbn [content created_utc row_id].
  split; [reflexivity|]. split; [reflexivity|].
  pose proof (largest_row_id_nonneg t) as Hnonneg.
  split; [unfold next_rowid in *; lia|].
  intros r Hr. pose proof (largest_row_id_ge t r Hr). unfold next_rowid. lia.
Qed.

(** X18.  With [DB_PATH] naming a private database ([:memory:] or the
    empty name), the table [init_db] creates is gone when [save_topic]
    connects: no run succeeds, a run whose generation succeeds ends with
    the error of the insert, no message is sent and no file is touched. *)
Theorem private_database_run w environ fs cfg :
  load_config int_of_str float_of_str environ = Ok cfg ->
  transient (DB_PATH cfg) = true ->
  (run int_of_str float_of_str w environ fs).1 <> Ok tt
  /\ files (run int_of_str float_of_str w environ fs).2 = fs
  /\ count_events is_post_telegram
       (trace (run int_of_str float_of_str w environ fs).2) = 0%nat
  /\ forall st topic,
       (call_openai w cfg PROMPT st).1 = Ok topic ->
       (run int_of_str float_of_str w environ fs).1
       = Raise (OperationalError NoSuchTable).
Proof.
  intros Hcfg Htr. rewrite (run_loaded _ _ _ _ _ _ Hcfg).
  assert (Hinit : after_init (DB_PATH cfg) fs = fs).
  { unfold after_init, commit. rewrite Htr. reflexivity. }
  destruct (main_run_main w cfg {| files := fs; trace := [] |})
    as [e He | topic e Ht Hins | topic db e Ht Hins Htg
        | topic db answer Ht Hins Htg];
    cbn [files trace app] in *;
    try (rewrite insert_topic_transient in Hins by assumption).
  - split; [discriminate|]. split; [exact Hinit|]. split; [reflexivity|].
    intros st topic Hcall. rewrite call_openai_run in Hcall. cbn [fst] in Hcall.
    congruence.
  - injection Hins as <-. split; [discriminate|]. split; [exact Hinit|].
    split; [reflexivity|]. reflexivity.
  - discriminate.
  - discriminate.
Qed.

(** X19.  Once the settings are read and [DB_PATH] names a database file,
    neither a private database nor a name that can be read as a URI, the
    file holds the table [topics] after the run, whatever became of the
    generation and of the notification. *)
Theorem run_creates_table w environ fs cfg :
  load_config int_of_str float_of_str environ = Ok cfg ->
  transient (DB_PATH cfg) = false ->
  uri_name (DB_PATH cfg) = false ->
  exists db,
    files (run int_of_str float_of_str w environ fs).2 !! DB_PATH cfg = Some db
    /\ is_Some (db !! "topics"%string).
Proof.
  intros Hcfg Htr _. rewrite (run_loaded _ _ _ _ _ _ Hcfg).
  assert (Hinit : exists db,
            after_init (DB_PATH cfg) fs !! DB_PATH cfg = Some db
            /\ is_Some (db !! "topics"%string)).
  { eexists. unfold after_init, commit. rewrite Htr, lookup_insert_eq.
    split; [reflexivity | apply create_topics_has_table]. }
  assert (Hinsert : forall topic db,
            insert_topic (utcnow_isoformat w) topic
              (connect (DB_PATH cfg) (after_init (DB_PATH cfg) fs)) = Ok db ->
            exists db',
              commit (DB_PATH cfg) db (after_init (DB_PATH cfg) fs) !! DB_PATH cfg
              = Some db'
              /\ is_Some (db' !! "topics"%string)).
  { intros topic db Hins. exists db. unfold commit at 1.
    rewrite Htr, lookup_insert_eq. split; [reflexivity|].
    destruct (insert_topic_inv _ _ _ _ Hins) as (t & _ & _ & _ & _ & ->).
    rewrite lookup_insert_eq. eauto. }
  destruct (main_run_main w cfg {| files := fs; trace := [] |})
    as [e He | topic e Ht Hins | topic db e Ht Hins Htg
        | topic db answer Ht Hins Htg];
    cbn [files trace app] in *; eauto.
Qed.

End StoreMore.

(* ===================================================================== *)
(** ** The further theorems on concrete runs *)
(* ===================================================================== *)


Example working_run :
  (run int_ascii float_decimal working_world credentials ∅).1 = Ok tt
  /\ content <$> topic_rows
                   (files (run int_ascii float_decimal working_world
                             credentials ∅).2)
                   (utf8 "topics.db")
     = [utf8 "Téma: X"].
Proof. vm_compute. split; reflexivity. Qed.

Lemma notification_reply_not_json_witness :
  exists req,
    trace (run int_ascii float_decimal html_reply_world credentials ∅).2 !! 3%nat
    = Some (EvPostTelegram req)
    /\ telegram_post html_reply_world req = Reply 200 None
    /\ ~ (400 <= 200 < 600)
    /\ (run int_ascii float_decimal html_reply_world credentials ∅).1
       = Raise JSONDecodeError.
Proof.
  set (out := run int_ascii float_decimal html_reply_world credentials ∅).
  assert (Hreq : exists req, trace out.2 !! 3%nat = Some (EvPostTelegram req))
    by (vm_compute; eexists; reflexivity).
  assert (Hstatus : ~ (400 <= 200 < 600)) by lia.
  destruct Hreq as [req Hreq]. exists req.
  split; [exact Hreq|]. split; [reflexivity|]. split; [exact Hstatus|].
  exact (proj1 (notification_reply_not_json int_ascii float_decimal
                  html_reply_world credentials ∅ out.1 out.2 3 req 200
                  (surjective_pairing out) Hreq eq_refl Hstatus)).
Defined.

Lemma empty_credential_aborts_witness :
  empty_chat_environ !! "TG_CHAT_ID"%string = Some []
  /\ is_Some (int_ascii (default (utf8 "600")
                           (empty_chat_environ !! "MAX_TOKENS"%string)))
  /\ is_Some (float_decimal (default (utf8 "0.4")
                               (empty_chat_environ !! "TEMPERATURE"%string)))
  /\ run int_ascii float_decimal working_world empty_chat_environ ∅
     = (Raise (SystemExit missing_env_message), fresh_state).
Proof.
  assert (Hempty : empty_chat_environ !! "TG_CHAT_ID"%string = Some [])
    by (vm_compute; reflexivity).
  assert (Hint : is_Some (int_ascii (default (utf8 "600")
                            (empty_chat_environ !! "MAX_TOKENS"%string))))
    by (vm_compute; eexists; reflexivity).
  assert (Hfloat : is_Some (float_decimal (default (utf8 "0.4")
                              (empty_chat_environ !! "TEMPERATURE"%string))))
    by (vm_compute; eexists; reflexivity).
  split; [exact Hempty|]. split; [exact Hint|]. split; [exact Hfloat|].
  exact (empty_credential_aborts int_ascii float_decimal working_world
           empty_chat_environ ∅ (or_intror (or_intror Hempty)) Hint Hfloat).
Defined.

Lemma notification_markdown_witness :
  exists req,
    trace (run int_ascii float_decimal working_world credentials ∅).2 !! 3%nat
    = Some (EvPostTelegram req)
    /\ tg_parse_mode req = Some (utf8 "Markdown").
Proof.
  set (out := run int_ascii float_decimal working_world credentials ∅).
  assert (Hreq : exists req, trace out.2 !! 3%nat = Some (EvPostTelegram req))
    by (vm_compute; eexists; reflexivity).
  destruct Hreq as [req Hreq]. exists req. split; [exact Hreq|].
  destruct (notification_markdown int_ascii float_decimal working_world
              credentials ∅ out.1 out.2 3 req (surjective_pairing out) Hreq)
    as [topic [(_ & Hmode & _) | ((v & Hv & _) & _)]].
  - exact Hmode.
  - exfalso. vm_compute in Hv. discriminate.
Defined.


Lemma save_topic_appends_witness :
  save_topic working_world (utf8 "Téma: X") (utf8 "topics.db")
    (init_db (utf8 "topics.db") fresh_state).2
  = (Ok tt,
     (save_topic working_world (utf8 "Téma: X") (utf8 "topics.db")
        (init_db (utf8 "topics.db") fresh_state).2).2)
  /\ exists row,
       topic_rows
         (files (save_topic working_world (utf8 "Téma: X") (utf8 "topics.db")
                   (init_db (utf8 "topics.db") fresh_state).2).2)
         (utf8 "topics.db")
       = [row]
       /\ content row = utf8 "Téma: X".
Proof.
  assert (Hsave : save_topic working_world (utf8 "Téma: X") (utf8 "topics.db")
                    (init_db (utf8 "topics.db") fresh_state).2
                  = (Ok tt,
                     (save_topic working_world (utf8 "Téma: X")
                        (utf8 "topics.db")
                        (init_db (utf8 "topics.db") fresh_state).2).2))
    by (vm_compute; reflexivity).
  split; [exact Hsave|].
  destruct (save_topic_appends _ _ _ _ _ Hsave)
    as (row & Hrows & Hcontent & _).
  exists row. split; [|exact Hcontent].
  rewrite Hrows. reflexivity.
Defined.

Lemma private_database_run_witness :
  load_config int_ascii float_decimal memory_environ = Ok memory_config
  /\ transient (DB_PATH memory_config) = true
  /\ (run int_ascii float_decimal working_world memory_environ ∅).1
     = Raise (OperationalError NoSuchTable).
Proof.
  assert (Hcfg : load_config int_ascii float_decimal memory_environ
                 = Ok memory_config) by (vm_compute; reflexivity).
  assert (Htr : transient (DB_PATH memory_config) = true) by reflexivity.
  split; [exact Hcfg|]. split; [exact Htr|].
  destruct (private_database_run int_ascii float_decimal working_world
              memory_environ ∅ memory_config Hcfg Htr) as (_ & _ & _ & Hfail).
  apply (Hfail fresh_state (utf8 "Téma: X")). vm_compute. reflexivity.
Defined.

Lemma run_creates_table_witness :
  load_config int_ascii float_decimal credentials = Ok sample_config
  /\ transient (DB_PATH sample_config) = false
  /\ uri_name (DB_PATH sample_config) = false
  /\ exists db,
       files (run int_ascii float_decimal unreachable_world credentials ∅).2
         !! DB_PATH sample_config = Some db
       /\ is_Some (db !! "topics"%string).
Proof.
  assert (Hcfg : load_config int_ascii float_decimal credentials = Ok sample_config)
    by (vm_compute; reflexivity).
  assert (Htr : transient (DB_PATH sample_config) = false) by reflexivity.
  assert (Hname : uri_name (DB_PATH sample_config) = false) by reflexivity.
  split; [exact Hcfg|]. split; [exact Htr|]. split; [exact Hname|].
  exact (run_creates_table int_ascii float_decimal unreachable_world
           credentials ∅ sample_config Hcfg Htr Hname).
Defined.
